(** * Tiingo news bulk-file synchronisation (DataProcessing/sync-tiingonews.py)

    A shallow embedding of the script: the catalog frame as a list of rows,
    the pandas operations it calls as list functions, the script itself as a
    program in a reader/state/exception monad over the process environment,
    the raw-data folder and an event trace. *)

From stdpp Require Import base gmap sets list strings.
From Stdlib Require Import ZArith Ascii.

Local Open Scope Z_scope.

(** ** Values *)

(** [datetime.date]: ordered by (year, month, day). *)
Record date := Date { year : Z; month : Z; day : Z }.

Definition date_le (a b : date) : bool :=
  (year a <? year b) ||
  ((year a =? year b) &&
   ((month a <? month b) || ((month a =? month b) && (day a <=? day b)))).

(** A cell of the [startDate]/[endDate] columns: the text delivered by the
    JSON response, or the [datetime.date] object that lines 36-37 store. *)
Inductive datecell :=
| RawDate (text : string)
| DayDate (d : date).

(** One row of [df]; [id] is the index after [set_index('id')]. *)
Record Row := mkRow {
  id : Z;
  filename : string;
  url : string;
  batchType : string;
  startDate : datecell;
  endDate : datecell
}.

(** Exceptions the script can meet.  [HTTPError] carries the status code;
    [OtherError] stands for every class that is neither of the named ones
    nor a subclass of [HTTPError] (URLError, OSError, ConnectionError, ...). *)
Inductive exn :=
| KeyError (key : string)
| ValueError (what : string)
| IndexError
| HTTPError (code : Z)
| OtherError (class : string).

Inductive result (A : Type) :=
| Ok (a : A)
| Raise (e : exn).
Arguments Ok {A} a.
Arguments Raise {A} e.

#[global] Instance result_ret : MRet result := λ A a, Ok a.
#[global] Instance result_bind : MBind result := λ A B f r,
  match r with Ok a => f a | Raise e => Raise e end.
#[global] Instance result_fmap : FMap result := λ A B f r,
  match r with Ok a => Ok (f a) | Raise e => Raise e end.

(** [isinstance(e, HTTPError)], the test of the [except] clause at line 53. *)
Definition is_HTTPError (e : exn) : bool :=
  match e with HTTPError _ => true | _ => false end.

(** ** The pandas operations used by the script *)

(** [df[mask]]: boolean-mask row selection. *)
Fixpoint boolean_index {A} (df : list A) (mask : list bool) : list A :=
  match df, mask with
  | r :: df', b :: mask' =>
      if b then r :: boolean_index df' mask' else boolean_index df' mask'
  | _, _ => []
  end.

(** [Series.duplicated(keep='first')]: a value is marked when it occurred
    at an earlier position. *)
Fixpoint duplicated_from (seen : gset string) (col : list string) : list bool :=
  match col with
  | [] => []
  | x :: col' => bool_decide (x ∈ seen) :: duplicated_from ({[x]} ∪ seen) col'
  end.

Definition duplicated_keep_first (col : list string) : list bool :=
  duplicated_from ∅ col.

(** [df.set_index('id', drop=True, inplace=True)].  [pd.DataFrame([])] has
    no columns at all, so the call raises [KeyError] on an empty response. *)
Definition set_index_id (records : list Row) : result (list Row) :=
  match records with
  | [] => Raise (KeyError "id")
  | _ => Ok records
  end.

(** [df.sort_index(ascending=False)]: a NEW frame ordered by descending
    index; the receiver is left as it was. *)
Fixpoint insert_descending (r : Row) (sorted : list Row) : list Row :=
  match sorted with
  | [] => [r]
  | r' :: rest =>
      if id r' <? id r then r :: sorted else r' :: insert_descending r rest
  end.

Fixpoint sort_index_descending (df : list Row) : list Row :=
  match df with
  | [] => []
  | r :: df' => insert_descending r (sort_index_descending df')
  end.

(** Lines 24-30: build the frame, index it, keep the incremental rows, drop
    repeated filenames.  The sorted frame of line 26 is not bound to
    anything. *)
Definition incremental_unique (json : list Row) : result (list Row) :=
  df ← set_index_id json;
  let _ := sort_index_descending df in
  let df := boolean_index df (map (λ r, String.eqb (batchType r) "incremental") df) in
  let df := boolean_index df (map negb (duplicated_keep_first (map filename df))) in
  Ok df.

Definition is_incremental (r : Row) : bool := String.eqb (batchType r) "incremental".

(** Rows kept by lines 28 and 30 when the filenames in [seen] count as
    already met. *)
Definition kept_from (seen : gset string) (json : list Row) : list Row :=
  let df := boolean_index json (map is_incremental json) in
  boolean_index df (map negb (duplicated_from seen (map filename df))).

(** ** The world the script runs in *)

(** Messages written by [print]. *)
Inductive message :=
| MsgDownloadList
| MsgLookLocal
| MsgStarting (count : nat)
| MsgDownload (file_name : string)
| MsgNotFound (url : string) (e : exn)
| MsgDone.

(** Observable actions, in program order. *)
Inductive event :=
| EvMkdir
| EvPrint (m : message)
| EvGet (request_url : string)
| EvGlob
| EvUrlretrieve (url : string) (file_name : string).

(** What the surroundings answer during one run. *)
Record Oracle := mkOracle {
  (** [os.environ] *)
  environ : gmap string string;
  (** exception raised by [raw_data_folder.mkdir], if any *)
  mkdir_raises : option exn;
  (** [requests.get(url).json()] turned into the frame's records, or the
      exception raised on the way *)
  get_json : string → result (list Row);
  (** exception raised by [urlretrieve(url, raw_data_folder / file_name)] *)
  urlretrieve_raises : string → string → option exn;
  (** the order in which [list(a_set)] enumerates *)
  set_iteration : gset string → list string
}.

(** [list(s)] yields every member of [s] once, in an order of its own. *)
Definition set_iteration_ok (o : Oracle) : Prop :=
  ∀ X : gset string, set_iteration o X ≡ₚ elements X.

(** The names directly inside [raw_data_folder], and the trace so far. *)
Record State := mkState {
  folder : gset string;
  trace : list event
}.

Definition M (A : Type) : Type := Oracle → State → State * result A.

#[global] Instance M_ret : MRet M := λ A a _ s, (s, Ok a).
#[global] Instance M_bind : MBind M := λ A B f m o s,
  match m o s with
  | (s', Ok a) => f a o s'
  | (s', Raise e) => (s', Raise e)
  end.

Definition lift {A} (r : result A) : M A := λ _ s, (s, r).
Definition raise {A} (e : exn) : M A := λ _ s, (s, Raise e).
Definition ask : M Oracle := λ o s, (s, Ok o).
Definition emit (ev : event) : M unit :=
  λ _ s, (mkState (folder s) (trace s ++ [ev]), Ok tt).
Definition print (m : message) : M unit := emit (EvPrint m).
Definition listing : M (gset string) := λ _ s, (s, Ok (folder s)).

(** [try: body  except <class> as e: handler e]. *)
Definition try_except {A} (body : M A) (caught : exn → bool)
    (handler : exn → M A) : M A :=
  λ o s,
    match body o s with
    | (s', Raise e) => if caught e then handler e o s' else (s', Raise e)
    | done => done
    end.

(** [for x in xs: body x]. *)
Fixpoint for_each {A} (xs : list A) (body : A → M unit) : M unit :=
  match xs with
  | [] => mret tt
  | x :: xs' => body x ;; for_each xs' body
  end.

(** ** A sample of the library's parsing, for running the script on concrete inputs

    The two parsers below cover the plain forms only: eight digits for
    [strptime(..., "%Y%m%d")], and [YYYY-MM-DD] for [to_datetime], which
    pandas reads as midnight UTC of that day. *)
Module Sample.

Definition digit (c : ascii) : option Z :=
  let n := Z.of_nat (nat_of_ascii c) in
  if (48 <=? n) && (n <=? 57) then Some (n - 48) else None.

Fixpoint digits (acc : Z) (cs : list ascii) : option Z :=
  match cs with
  | [] => Some acc
  | c :: cs' => d ← digit c; digits (10 * acc + d) cs'
  end.

Definition is_leap (y : Z) : bool :=
  ((y mod 4 =? 0) && negb (y mod 100 =? 0)) || (y mod 400 =? 0).

Definition days_in_month (y m : Z) : Z :=
  if m =? 2 then (if is_leap y then 29 else 28)
  else if (m =? 4) || (m =? 6) || (m =? 9) || (m =? 11) then 30
  else 31.

Definition civil (y m d : Z) : option date :=
  if (1 <=? y) && (1 <=? m) && (m <=? 12) && (1 <=? d) && (d <=? days_in_month y m)
  then Some (Date y m d) else None.

Definition strptime_Ymd (text : string) : option date :=
  match String.list_ascii_of_string text with
  | [y1; y2; y3; y4; m1; m2; d1; d2] =>
      y ← digits 0 [y1; y2; y3; y4];
      m ← digits 0 [m1; m2];
      d ← digits 0 [d1; d2];
      civil y m d
  | _ => None
  end.

Definition to_datetime_utc_date (text : string) : option date :=
  match String.list_ascii_of_string text with
  | [y1; y2; y3; y4; h1; m1; m2; h2; d1; d2] =>
      if Ascii.eqb h1 "-" && Ascii.eqb h2 "-" then
        y ← digits 0 [y1; y2; y3; y4];
        m ← digits 0 [m1; m2];
        d ← digits 0 [d1; d2];
        civil y m d
      else None
  | _ => None
  end.


(** An oracle with the given environment, catalog and transfer answers;
    [mkdir] succeeds and [list(set)] enumerates as [elements] does. *)
Definition oracle (env : list (string * string)) (catalog : result (list Row))
    (transfer : string → string → option exn) : Oracle :=
  mkOracle (list_to_map env) None (λ _, catalog) transfer elements.

Definition incremental (i : Z) (name link : string) (s e : string) : Row :=
  mkRow i name link "incremental" (RawDate s) (RawDate e).

Definition key_only : list (string * string) := [("TIINGO_API_KEY", "k")].

Definition key_and_date (text : string) : list (string * string) :=
  [("TIINGO_API_KEY", "k"); ("QC_DATAFLEET_DEPLOYMENT_DATE", text)].

Definition always_transferred : string → string → option exn := λ _ _, None.

(** Two entries for one filename, and two further files. *)
Definition a5 : Row :=
  incremental 5 "a.tar.gz" "http://x/a" "2023-04-01" "2023-04-02".
Definition a3 : Row :=
  incremental 3 "a.tar.gz" "http://x/old-a" "2023-03-30" "2023-03-31".
Definition b7 : Row :=
  incremental 7 "b.tar.gz" "http://x/b" "2023-04-02" "2023-04-03".
Definition c8 : Row :=
  incremental 8 "c.tar.gz" "http://x/c" "2023-04-03" "2023-04-04".
Definition base9 : Row :=
  mkRow 9 "a.tar.gz" "http://x/base-a" "base"
        (RawDate "2023-01-01") (RawDate "2023-04-02").
Definition zip1 : Row :=
  incremental 1 "a.zip" "http://x/a.zip" "2023-04-01" "2023-04-02".

(** The transfer from [link] raises [e]; every other one succeeds. *)
Definition failing (link : string) (e : exn) : string → string → option exn :=
  λ url _, if String.eqb url link then Some e else None.

End Sample.

(** ** The script *)

Section Script.

(** [datetime.strptime(text, "%Y%m%d").date()]; [None] where it raises
    [ValueError]. *)
Variable strptime_Ymd : string → option date.

(** [pd.to_datetime(text, utc=True)] followed by [.dt.date], for one cell:
    the timestamp is converted to UTC and its calendar day is taken;
    [None] where the text is not a timestamp. *)
Variable to_datetime_utc_date : string → option date.

Definition known_missing_dates : list string :=
  ["bulkfile_2017-03-11_2017-03-13.tar.gz";
   "bulkfile_2018-03-10_2018-03-12.tar.gz"].

Definition bulk_download_url (TIINGO_API_KEY : string) : string :=
  "https://api.tiingo.com/tiingo/news/bulk_download?token=" +:+ TIINGO_API_KEY.

(** *** Primitive actions *)

(** [os.environ[key]] *)
Definition environ_get (key : string) : M string :=
  o ← ask;
  match environ o !! key with
  | Some v => mret v
  | None => raise (KeyError key)
  end.

(** [raw_data_folder.mkdir(parents=True, exist_ok=True)]: the names inside
    the folder are the same before and after. *)
Definition mkdir : M unit :=
  emit EvMkdir;;
  o ← ask;
  match mkdir_raises o with
  | None => mret tt
  | Some e => raise e
  end.

(** [pd.DataFrame(requests.get(url, headers=headers).json())] before
    indexing. *)
Definition requests_get_json (request_url : string) : M (list Row) :=
  emit (EvGet request_url);;
  o ← ask;
  lift (get_json o request_url).

(** [fnmatch(name, '*.tar.gz')]: any text, then the literal suffix. *)
Definition matches_tar_gz (name : string) : bool :=
  let n := String.length name in
  let k := String.length ".tar.gz" in
  (k <=? n)%nat && String.eqb (String.substring (n - k)%nat k name) ".tar.gz".

(** [[f.name for f in raw_data_folder.glob('*.tar.gz')]]: the script only
    ever takes [set(...)] of it. *)
Definition glob_tar_gz : M (list string) :=
  emit EvGlob;;
  names ← listing;
  mret (elements (filter (λ name, matches_tar_gz name) names)).

Definition list_of_set (X : gset string) : M (list string) :=
  o ← ask; mret (set_iteration o X).

Fixpoint has_separator (name : string) : bool :=
  match name with
  | EmptyString => false
  | String c rest => Ascii.eqb c "/"%char || has_separator rest
  end.

(** [raw_data_folder / name] is an entry directly inside the folder when
    [name] is a single path component. *)
Definition is_component (name : string) : bool :=
  negb (String.eqb name "") && negb (String.eqb name ".")
  && negb (String.eqb name "..") && negb (has_separator name).

(** The file written by a completed transfer.  A name that is not a
    single component designates a path that is not an entry of the
    folder, so the listing stays as it is. *)
Definition create_file (file_name : string) : M unit :=
  λ _ s,
    (mkState (if is_component file_name then {[file_name]} ∪ folder s
              else folder s)
             (trace s),
     Ok tt).

(** [urlretrieve(url, destination_path)]; a transfer that raises leaves
    the listing as it is. *)
Definition urlretrieve (url file_name : string) : M unit :=
  emit (EvUrlretrieve url file_name);;
  o ← ask;
  match urlretrieve_raises o url file_name with
  | Some e => raise e
  | None => create_file file_name
  end.

(** [column.values[0]] *)
Definition values0 {A} (column : list A) : result A :=
  match column with
  | x :: _ => Ok x
  | [] => Raise IndexError
  end.

(** *** Lines 32-38: the optional date window *)

Definition cell_utc_date (c : datecell) : result date :=
  match c with
  | RawDate text =>
      match to_datetime_utc_date text with
      | Some d => Ok d
      | None => Raise (ValueError text)
      end
  | DayDate d => Ok d
  end.

Fixpoint for_rows (f : Row → result Row) (df : list Row) : result (list Row) :=
  match df with
  | [] => Ok []
  | r :: df' => r' ← f r; df'' ← for_rows f df'; Ok (r' :: df'')
  end.

(** [df['startDate'] = pd.to_datetime(df['startDate'], utc=True).dt.date] *)
Definition normalise_startDate (r : Row) : result Row :=
  d ← cell_utc_date (startDate r);
  Ok (mkRow (id r) (filename r) (url r) (batchType r) (DayDate d) (endDate r)).

(** [df['endDate'] = pd.to_datetime(df['endDate'], utc=True).dt.date] *)
Definition normalise_endDate (r : Row) : result Row :=
  d ← cell_utc_date (endDate r);
  Ok (mkRow (id r) (filename r) (url r) (batchType r) (startDate r) (DayDate d)).

(** The row predicate of ['startDate <= @processing_date <= endDate'];
    comparing a text cell with a date raises [TypeError]. *)
Definition in_window (processing_date : date) (r : Row) : result bool :=
  match startDate r, endDate r with
  | DayDate s, DayDate e =>
      Ok (date_le s processing_date && date_le processing_date e)
  | _, _ => Raise (OtherError "TypeError")
  end.

(** [df.query('startDate <= @processing_date <= endDate')] *)
Fixpoint query_window (processing_date : date) (df : list Row)
    : result (list Row) :=
  match df with
  | [] => Ok []
  | r :: df' =>
      keep ← in_window processing_date r;
      df'' ← query_window processing_date df';
      Ok (if keep : bool then r :: df'' else df'')
  end.

Definition date_window (df : list Row) : M (list Row) :=
  o ← ask;
  match environ o !! "QC_DATAFLEET_DEPLOYMENT_DATE" with
  | None => mret df
  | Some text =>
      processing_date ←
        lift (match strptime_Ymd text with
              | Some d => Ok d
              | None => Raise (ValueError text)
              end);
      df ← lift (for_rows normalise_startDate df);
      df ← lift (for_rows normalise_endDate df);
      lift (query_window processing_date df)
  end.

(** *** Lines 24-38: Filter & Dedupe *)
Definition filter_dedupe (json : list Row) : M (list Row) :=
  df ← lift (incremental_unique json);
  date_window df.

(** *** Line 42: Diff *)
Definition diff (df : list Row) (present_files : list string) : gset string :=
  list_to_set (map filename df) ∖ list_to_set present_files
    ∖ list_to_set known_missing_dates.

(** *** Lines 46-55: one turn of the download loop *)
Definition download (df : list Row) (bulk_file : string) : M unit :=
  let row := boolean_index df (map (λ r, String.eqb (filename r) bulk_file) df) in
  url ← lift (values0 (map url row));
  file_name ← lift (values0 (map filename row));
  print (MsgDownload file_name);;
  try_except (urlretrieve url file_name) is_HTTPError
             (λ e, print (MsgNotFound url e)).

(** *** Lines 12-43: everything before the loop *)
Definition prepare : M (list Row * list string) :=
  TIINGO_API_KEY ← environ_get "TIINGO_API_KEY";
  mkdir;;
  print MsgDownloadList;;
  json ← requests_get_json (bulk_download_url TIINGO_API_KEY);
  df ← filter_dedupe json;
  print MsgLookLocal;;
  present_files ← glob_tar_gz;
  files_to_download ← list_of_set (diff df present_files);
  print (MsgStarting (length files_to_download));;
  mret (df, files_to_download).

(** *** The whole script *)
Definition main : M unit :=
  p ← prepare;
  let '(df, files_to_download) := p in
  for_each files_to_download (download df);;
  print MsgDone.

(** A run of the script from a given folder listing. *)
Definition run (o : Oracle) (names : gset string) : State * result unit :=
  main o (mkState names []).

(** *** Notions used in the statements *)

(** The "not found" class of transfer error, as the specification words
    it: the HTTP status 404. *)
Definition is_not_found (e : exn) : bool :=
  match e with HTTPError code => code =? 404 | _ => false end.

(** The value of lines 32-38 as a function of the frame and of the text
    found (or not) under QC_DATAFLEET_DEPLOYMENT_DATE. *)
Definition window_result (target : option string) (df : list Row)
    : result (list Row) :=
  match target with
  | None => Ok df
  | Some text =>
      processing_date ←
        match strptime_Ymd text with
        | Some d => Ok d
        | None => Raise (ValueError text)
        end;
      df ← for_rows normalise_startDate df;
      df ← for_rows normalise_endDate df;
      query_window processing_date df
  end.

(** [r] is the catalog entry [r0] with both date cells replaced by the UTC
    calendar day of their timestamp. *)
Definition same_entry (r0 r : Row) : Prop :=
  id r = id r0 ∧ filename r = filename r0 ∧ url r = url r0 ∧
  batchType r = batchType r0.

Definition normalised (r0 r : Row) : Prop :=
  same_entry r0 r ∧
  ∃ s e, cell_utc_date (startDate r0) = Ok s ∧ cell_utc_date (endDate r0) = Ok e ∧
         startDate r = DayDate s ∧ endDate r = DayDate e.

(** A row without its two date cells. *)
Definition nodate (r : Row) : Z * string * string * string :=
  (id r, filename r, url r, batchType r).

(** The response lists its entries by descending identifier. *)
Definition listed_descending (json : list Row) : Prop :=
  ∀ before r after, json = before ++ r :: after →
    ∀ r', r' ∈ after → id r' ≤ id r.

(** The state after more events were written. *)
Definition traced (s : State) (evs : list event) : State :=
  mkState (folder s) (trace s ++ evs).

(** Nothing is ever removed: the trace is extended and the folder keeps its
    names. *)
Definition grows (s s' : State) : Prop :=
  trace s `prefix_of` trace s' ∧ folder s ⊆ folder s'.

(** [df[df.filename == bulk_file]] *)
Definition rows_named (df : list Row) (bulk_file : string) : list Row :=
  boolean_index df (map (λ r, String.eqb (filename r) bulk_file) df).

(** The events written before the download loop starts. *)
Definition prelude (TIINGO_API_KEY : string) (count : nat) : list event :=
  [EvMkdir; EvPrint MsgDownloadList; EvGet (bulk_download_url TIINGO_API_KEY);
   EvPrint MsgLookLocal; EvGlob; EvPrint (MsgStarting count)].

(** The filenames of the transfers attempted, in trace order. *)
Fixpoint attempted (evs : list event) : list string :=
  match evs with
  | [] => []
  | EvUrlretrieve _ file_name :: evs' => file_name :: attempted evs'
  | _ :: evs' => attempted evs'
  end.


(** The events that the download loop writes. *)
Definition loop_event (ev : event) : bool :=
  match ev with
  | EvPrint (MsgDownload _) | EvPrint (MsgNotFound _ _) | EvUrlretrieve _ _ =>
      true
  | _ => false
  end.

(** The names listed by the scan of line 41 in a folder. *)
Definition scan (names : gset string) : list string :=
  elements (filter (λ name, matches_tar_gz name) names).

(** ** Facts about the frame operations *)

Lemma kept_from_nil seen : kept_from seen [] = [].
Proof. reflexivity. Qed.

Lemma kept_from_cons seen r json :
  kept_from seen (r :: json) =
    if is_incremental r then
      if bool_decide (filename r ∈ seen)
      then kept_from ({[filename r]} ∪ seen) json
      else r :: kept_from ({[filename r]} ∪ seen) json
    else kept_from seen json.
Proof.
  unfold kept_from; simpl.
  destruct (is_incremental r); simpl; [|done].
  by destruct (bool_decide (filename r ∈ seen)).
Qed.

Lemma is_incremental_spec r : is_incremental r = true ↔ batchType r = "incremental".
Proof. apply String.eqb_eq. Qed.

Lemma incremental_unique_kept json df :
  incremental_unique json = Ok df ↔ json ≠ [] ∧ df = kept_from ∅ json.
Proof.
  unfold incremental_unique, kept_from, duplicated_keep_first, is_incremental.
  destruct json as [|r json]; simpl.
  - split; [done | by intros [? _]].
  - split.
    + intros [= <-]. done.
    + intros [_ ->]. done.
Qed.

Lemma kept_from_sublist seen json : kept_from seen json `sublist_of` json.
Proof.
  revert seen; induction json as [|r json IH]; intros seen.
  - done.
  - rewrite kept_from_cons.
    destruct (is_incremental r); [destruct (bool_decide _)|].
    + by apply sublist_cons.
    + by apply sublist_skip.
    + by apply sublist_cons.
Qed.

Lemma kept_from_fresh seen json r :
  r ∈ kept_from seen json → filename r ∉ seen.
Proof.
  revert seen; induction json as [|r0 json IH]; intros seen.
  - rewrite kept_from_nil. by intros ?%elem_of_nil.
  - rewrite kept_from_cons.
    destruct (is_incremental r0); [|by apply IH].
    destruct (bool_decide (filename r0 ∈ seen)) eqn:Hseen.
    + intros Hin%IH. set_solver.
    + apply bool_decide_eq_false in Hseen.
      intros [->|Hin%IH]%elem_of_cons; [done | set_solver].
Qed.

Lemma kept_from_NoDup seen json : NoDup (map filename (kept_from seen json)).
Proof.
  revert seen; induction json as [|r json IH]; intros seen.
  - constructor.
  - rewrite kept_from_cons.
    destruct (is_incremental r); [|by apply IH].
    destruct (bool_decide (filename r ∈ seen)); [by apply IH|].
    simpl. apply NoDup_cons; split; [|by apply IH].
    intros (r' & Heq & Hin%kept_from_fresh)%list_elem_of_fmap.
    set_solver.
Qed.

Lemma kept_from_incremental seen json r :
  r ∈ kept_from seen json → batchType r = "incremental".
Proof.
  revert seen; induction json as [|r0 json IH]; intros seen.
  - rewrite kept_from_nil. by intros ?%elem_of_nil.
  - rewrite kept_from_cons.
    destruct (is_incremental r0) eqn:Hinc; [|by apply IH].
    destruct (bool_decide (filename r0 ∈ seen)); [by apply IH|].
    intros [->|Hin]%elem_of_cons; [by apply is_incremental_spec | by eapply IH].
Qed.

(** The kept rows are exactly the first incremental occurrences of their
    filename, in the order of the response. *)
Lemma kept_from_first seen json r :
  r ∈ kept_from seen json ↔
  ∃ before after,
    json = before ++ r :: after ∧
    batchType r = "incremental" ∧
    (filename r ∉ seen) ∧
    (∀ r', r' ∈ before → batchType r' = "incremental" → filename r' ≠ filename r).
Proof.
  revert seen; induction json as [|r0 json IH]; intros seen.
  - rewrite kept_from_nil. split.
    + intros H. by apply elem_of_nil in H.
    + intros (before & after & Heq & _). by destruct before.
  - rewrite kept_from_cons. split.
    + destruct (is_incremental r0) eqn:Hinc.
      * assert (r ∈ kept_from ({[filename r0]} ∪ seen) json →
                ∃ before after, r0 :: json = before ++ r :: after ∧
                  batchType r = "incremental" ∧ (filename r ∉ seen) ∧
                  (∀ r', r' ∈ before → batchType r' = "incremental" →
                         filename r' ≠ filename r)) as Hrest.
        { intros Hin.
          destruct (proj1 (IH _) Hin) as (before & after & -> & Hb & Hf & Hfirst).
          apply not_elem_of_union in Hf as [Hne Hf].
          apply not_elem_of_singleton in Hne.
          exists (r0 :: before), after. repeat split; [done..|].
          intros r' Hr' Hb'. apply elem_of_cons in Hr' as [->|Hr'].
          - congruence.
          - by apply Hfirst. }
        destruct (bool_decide (filename r0 ∈ seen)) eqn:Hseen; [done|].
        apply bool_decide_eq_false in Hseen.
        intros Hin. apply elem_of_cons in Hin as [->|Hin]; [|by apply Hrest].
        exists [], json. repeat split; [by apply is_incremental_spec | done |].
        intros r' Hr'. by apply elem_of_nil in Hr'.
      * intros Hin.
        destruct (proj1 (IH _) Hin) as (before & after & -> & Hb & Hf & Hfirst).
        exists (r0 :: before), after. repeat split; [done..|].
        intros r' Hr' Hb'. apply elem_of_cons in Hr' as [->|Hr'].
        -- apply is_incremental_spec in Hb'. congruence.
        -- by apply Hfirst.
    + intros (before & after & Heq & Hb & Hf & Hfirst).
      destruct before as [|r1 before]; simpl in Heq.
      * injection Heq as -> ->.
        apply is_incremental_spec in Hb. rewrite Hb.
        rewrite bool_decide_eq_false_2 by done. apply elem_of_cons; by left.
      * injection Heq as <- ->.
        destruct (is_incremental r0) eqn:Hinc.
        -- assert (r ∈ kept_from ({[filename r0]} ∪ seen) (before ++ r :: after))
             as Hin.
           { apply (proj2 (IH _)). exists before, after. repeat split; [done| |].
             - assert (filename r0 ≠ filename r) as Hne.
               { apply Hfirst; [apply elem_of_cons; by left
                               | by apply is_incremental_spec]. }
               apply not_elem_of_union. split; [|done].
               apply not_elem_of_singleton. congruence.
             - intros r' Hr'. apply Hfirst. apply elem_of_cons; by right. }
           destruct (bool_decide (filename r0 ∈ seen)); [done|].
           apply elem_of_cons; by right.
        -- apply (proj2 (IH _)). exists before, after. repeat split; [done..|].
           intros r' Hr'. apply Hfirst. apply elem_of_cons; by right.
Qed.

(** X8.  On a response that the provider lists by descending identifier,
    the row kept for a filename has the greatest identifier among the
    incremental entries of that filename. *)
Lemma greatest_identifier_kept_when_listed_descending json df r r' :
  incremental_unique json = Ok df → listed_descending json →
  r ∈ df → r' ∈ json →
  batchType r' = "incremental" → filename r' = filename r →
  id r' ≤ id r.
Proof.
  intros [_ ->]%incremental_unique_kept Hdesc Hr Hr' Hinc Hname.
  apply kept_from_first in Hr as (before & after & -> & _ & _ & Hfirst).
  apply elem_of_app in Hr' as [Hr'|Hr'].
  - by destruct (Hfirst r' Hr' Hinc).
  - apply elem_of_cons in Hr' as [->|Hr']; [lia|].
    by eapply Hdesc.
Qed.

(** ** Facts about the script's stages *)

Lemma date_window_eq df o s :
  date_window df o s =
    (s, window_result (environ o !! "QC_DATAFLEET_DEPLOYMENT_DATE") df).
Proof.
  unfold date_window, window_result, mbind, M_bind, ask, lift; simpl.
  destruct (environ o !! "QC_DATAFLEET_DEPLOYMENT_DATE") as [text|]; [|done].
  destruct (strptime_Ymd text) as [D|]; simpl; [|done].
  destruct (for_rows normalise_startDate df) as [df1|e]; simpl; [|done].
  by destruct (for_rows normalise_endDate df1) as [df2|e].
Qed.

Lemma filter_dedupe_eq json o s :
  filter_dedupe json o s =
    (s, df ← incremental_unique json;
        window_result (environ o !! "QC_DATAFLEET_DEPLOYMENT_DATE") df).
Proof.
  unfold filter_dedupe, mbind at 1, M_bind, lift; simpl.
  destruct (incremental_unique json) as [df|e]; simpl; [|done].
  apply date_window_eq.
Qed.

Lemma for_rows_Forall2 f df df' :
  for_rows f df = Ok df' → Forall2 (λ r r', f r = Ok r') df df'.
Proof.
  revert df'; induction df as [|r df IH]; intros df'; simpl.
  - intros [= <-]. constructor.
  - destruct (f r) as [r'|e] eqn:Hr; simpl; [|done].
    destruct (for_rows f df) as [df''|e]; simpl; [|done].
    intros [= <-]. constructor; [done | by apply IH].
Qed.

Lemma query_window_sublist D df out :
  query_window D df = Ok out → out `sublist_of` df.
Proof.
  revert out; induction df as [|r df IH]; intros out; simpl.
  - intros [= <-]. constructor.
  - destruct (in_window D r) as [keep|e]; simpl; [|done].
    destruct (query_window D df) as [out'|e]; simpl; [|done].
    intros [= <-]. destruct keep.
    + apply sublist_skip. by apply IH.
    + apply sublist_cons. by apply IH.
Qed.

Lemma query_window_in D df out r :
  query_window D df = Ok out → r ∈ out → in_window D r = Ok true.
Proof.
  revert out; induction df as [|r1 df IH]; intros out; simpl.
  - intros [= <-] Hin. by apply elem_of_nil in Hin.
  - destruct (in_window D r1) as [keep|e] eqn:Hw; simpl; [|done].
    destruct (query_window D df) as [out'|e]; simpl; [|done].
    intros [= <-]. destruct keep; [|by apply IH].
    intros Hin. apply elem_of_cons in Hin as [->|Hin]; [done | by eapply IH].
Qed.

Lemma in_window_true D r :
  in_window D r = Ok true →
  ∃ s e, startDate r = DayDate s ∧ endDate r = DayDate e ∧
         date_le s D = true ∧ date_le D e = true.
Proof.
  unfold in_window.
  destruct (startDate r) as [|s]; [done|].
  destruct (endDate r) as [|e]; [done|].
  intros [= H]. apply andb_true_iff in H as [? ?]. by exists s, e.
Qed.

Lemma normalise_both r0 r1 r2 :
  normalise_startDate r0 = Ok r1 → normalise_endDate r1 = Ok r2 →
  normalised r0 r2.
Proof.
  unfold normalise_startDate, normalise_endDate.
  destruct (cell_utc_date (startDate r0)) as [s|] eqn:Hs; simpl; [|done].
  intros [= <-]; simpl.
  destruct (cell_utc_date (endDate r0)) as [e|] eqn:He; simpl; [|done].
  intros [= <-]. split; [done|]. by exists s, e.
Qed.

Lemma Forall2_normalised df df1 df2 :
  Forall2 (λ r r', normalise_startDate r = Ok r') df df1 →
  Forall2 (λ r r', normalise_endDate r = Ok r') df1 df2 →
  Forall2 normalised df df2.
Proof.
  intros H1; revert df2; induction H1 as [|r0 r1 df df1 Hr _ IH]; intros df2 H2.
  - inversion H2. constructor.
  - inversion H2 as [|? r2 ? df2' Hr2 H2']; subst.
    constructor; [by eapply normalise_both | by apply IH].
Qed.

Lemma Forall2_normalised_column {A} (column : Row → A) df df2 :
  (∀ r0 r, normalised r0 r → column r = column r0) →
  Forall2 normalised df df2 → map column df2 = map column df.
Proof.
  intros Hcol H; induction H as [|r0 r df df2 Hr _ IH]; simpl; [done|].
  by rewrite IH, (Hcol _ _ Hr).
Qed.

Lemma Forall2_normalised_source df df2 r :
  Forall2 normalised df df2 → r ∈ df2 → ∃ r0, r0 ∈ df ∧ normalised r0 r.
Proof.
  intros H; induction H as [|r0 r1 df df2 Hr _ IH].
  - intros Hin. by apply elem_of_nil in Hin.
  - intros Hin. apply elem_of_cons in Hin as [->|Hin].
    + exists r0. split; [apply elem_of_cons; by left | done].
    + destruct (IH Hin) as (r0' & ? & ?).
      exists r0'. split; [apply elem_of_cons; by right | done].
Qed.

Lemma window_result_Some text df out :
  window_result (Some text) df = Ok out →
  ∃ D df2, strptime_Ymd text = Some D ∧ Forall2 normalised df df2 ∧
           query_window D df2 = Ok out.
Proof.
  unfold window_result.
  destruct (strptime_Ymd text) as [D|]; simpl; [|done].
  destruct (for_rows normalise_startDate df) as [df1|] eqn:H1; simpl; [|done].
  destruct (for_rows normalise_endDate df1) as [df2|] eqn:H2; simpl; [|done].
  intros Hq. exists D, df2. repeat split; [|done].
  eapply Forall2_normalised; by apply for_rows_Forall2.
Qed.

(** What an [Ok] of the Filter & Dedupe stage tells about its rows. *)
Lemma filter_dedupe_Ok json o s out :
  (filter_dedupe json o s).2 = Ok out →
  json ≠ [] ∧
  match environ o !! "QC_DATAFLEET_DEPLOYMENT_DATE" with
  | None => out = kept_from ∅ json
  | Some text =>
      ∃ D df2, strptime_Ymd text = Some D ∧
               Forall2 normalised (kept_from ∅ json) df2 ∧
               query_window D df2 = Ok out
  end.
Proof.
  rewrite filter_dedupe_eq; simpl.
  destruct (incremental_unique json) as [df|] eqn:Hdf; simpl; [|done].
  apply incremental_unique_kept in Hdf as [Hne ->].
  destruct (environ o !! "QC_DATAFLEET_DEPLOYMENT_DATE") as [text|].
  - intros H. split; [done | by apply window_result_Some].
  - intros [= <-]. done.
Qed.

Lemma kept_from_nodate seen json json' :
  map nodate json' = map nodate json →
  map nodate (kept_from seen json') = map nodate (kept_from seen json).
Proof.
  revert seen json'; induction json as [|r json IH]; intros seen [|r' json'];
    simpl; try done.
  intros [= Hid Hname Hurl Hbatch Hrest].
  rewrite !kept_from_cons. unfold is_incremental. rewrite Hbatch, Hname.
  destruct (String.eqb (batchType r) "incremental"); [|by apply IH].
  destruct (bool_decide (filename r ∈ seen)); simpl; [by apply IH|].
  unfold nodate at 1 3. rewrite Hid, Hname, Hurl, Hbatch. f_equal. by apply IH.
Qed.

Lemma incremental_unique_nodate json json' :
  map nodate json' = map nodate json →
  map nodate <$> incremental_unique json' = map nodate <$> incremental_unique json.
Proof.
  intros H.
  destruct json as [|r json], json' as [|r' json']; try done.
  change (incremental_unique (r :: json)) with (Ok (kept_from ∅ (r :: json))).
  change (incremental_unique (r' :: json')) with (Ok (kept_from ∅ (r' :: json'))).
  simpl. f_equal. by apply kept_from_nodate.
Qed.

(** ** Properties of Diff and of Filter & Dedupe *)

(** C3.  The Diff step's output (catalog filenames minus present filenames
    minus denylist) shares no name with the locally present files and no
    name with the denylist. *)
Theorem diff_excludes_present_and_denylist
    (df : list Row) (present_files : list string) :
  diff df present_files ## list_to_set present_files ∧
  diff df present_files ## list_to_set known_missing_dates.
Proof using Type.
  unfold diff. split; intros name Hin Hexcluded;
    apply elem_of_difference in Hin as [Hin Hdeny];
    [apply elem_of_difference in Hin as [_ Hpresent]|]; done.
Qed.

(** C4.  Whenever the Filter & Dedupe stage produces a frame, no two of its
    rows carry the same filename. *)
Theorem filter_dedupe_unique_filenames
    (json : list Row) (o : Oracle) (s : State) (out : list Row) :
  (filter_dedupe json o s).2 = Ok out → NoDup (map filename out).
Proof.
  intros [_ H]%filter_dedupe_Ok.
  destruct (environ o !! "QC_DATAFLEET_DEPLOYMENT_DATE") as [text|].
  - destruct H as (D & df2 & _ & Hnorm & Hq).
    assert (map filename out `sublist_of` map filename df2) as Hsub.
    { apply (fmap_sublist filename). by eapply query_window_sublist. }
    eapply sublist_NoDup; [|exact Hsub].
    rewrite (Forall2_normalised_column filename _ _ (λ _ _ H, proj1 (proj2 (proj1 H))) Hnorm).
    apply kept_from_NoDup.
  - subst out. apply kept_from_NoDup.
Qed.

(** C5.  Whenever the Filter & Dedupe stage produces a frame, every row of
    it has batchType "incremental". *)
Theorem filter_dedupe_only_incremental
    (json : list Row) (o : Oracle) (s : State) (out : list Row) (r : Row) :
  (filter_dedupe json o s).2 = Ok out → r ∈ out → batchType r = "incremental".
Proof.
  intros [_ H]%filter_dedupe_Ok Hin.
  destruct (environ o !! "QC_DATAFLEET_DEPLOYMENT_DATE") as [text|].
  - destruct H as (D & df2 & _ & Hnorm & Hq).
    assert (r ∈ df2) as Hin2.
    { eapply elem_of_sublist; [done | by eapply query_window_sublist]. }
    destruct (Forall2_normalised_source _ _ _ Hnorm Hin2) as (r0 & Hr0 & Hn).
    destruct Hn as [(_ & _ & _ & ->) _]. by eapply kept_from_incremental.
  - subst out. by eapply kept_from_incremental.
Qed.

(** C6.  With a target date D in the environment, every row that survives
    Filter & Dedupe is a catalog entry whose startDate and endDate, taken as
    UTC calendar days, satisfy startDate <= D <= endDate.  With no target
    date, the stage returns catalog rows as they came, and two catalogs that
    differ in their date cells only yield the same rows apart from those
    cells. *)
Theorem date_window_contains_target (json : list Row) (o : Oracle) (s : State) :
  (∀ text out,
     environ o !! "QC_DATAFLEET_DEPLOYMENT_DATE" = Some text →
     (filter_dedupe json o s).2 = Ok out →
     ∃ D, strptime_Ymd text = Some D ∧
       ∀ r, r ∈ out →
         ∃ r0 sd ed,
           r0 ∈ json ∧ same_entry r0 r ∧
           cell_utc_date (startDate r0) = Ok sd ∧
           cell_utc_date (endDate r0) = Ok ed ∧
           startDate r = DayDate sd ∧ endDate r = DayDate ed ∧
           date_le sd D = true ∧ date_le D ed = true) ∧
  (environ o !! "QC_DATAFLEET_DEPLOYMENT_DATE" = None →
     (∀ out, (filter_dedupe json o s).2 = Ok out → out `sublist_of` json) ∧
     (∀ json', map nodate json' = map nodate json →
        map nodate <$> (filter_dedupe json' o s).2 =
        map nodate <$> (filter_dedupe json o s).2)).
Proof.
  split.
  - intros text out Henv [_ H]%filter_dedupe_Ok. rewrite Henv in H.
    destruct H as (D & df2 & HD & Hnorm & Hq).
    exists D. split; [done|]. intros r Hin.
    destruct (in_window_true _ _ (query_window_in _ _ _ _ Hq Hin))
      as (sd & ed & Hs & He & Hle1 & Hle2).
    assert (r ∈ df2) as Hin2.
    { eapply elem_of_sublist; [done | by eapply query_window_sublist]. }
    destruct (Forall2_normalised_source _ _ _ Hnorm Hin2)
      as (r0 & Hr0 & Hsame & sd' & ed' & Hc1 & Hc2 & Hs' & He').
    assert (sd' = sd) as -> by congruence.
    assert (ed' = ed) as -> by congruence.
    exists r0, sd, ed.
    split; [eapply elem_of_sublist; [done | apply kept_from_sublist] | done].
  - intros Henv. split.
    + intros out [_ H]%filter_dedupe_Ok. rewrite Henv in H. subst out.
      apply kept_from_sublist.
    + intros json' Hsame. rewrite !filter_dedupe_eq, Henv; simpl.
      pose proof (incremental_unique_nodate _ _ Hsame) as H.
      destruct (incremental_unique json), (incremental_unique json'); done.
Qed.

(** C9.  Filter & Dedupe is a function of the catalog records and of the
    (possibly absent) target date alone, and it leaves the folder and the
    trace as they were: two runs of the stage on the same records and the
    same target date return the same value, whatever else differs. *)
Theorem filter_dedupe_deterministic_and_pure
    (json : list Row) (o1 o2 : Oracle) (s1 s2 : State) :
  environ o1 !! "QC_DATAFLEET_DEPLOYMENT_DATE" =
    environ o2 !! "QC_DATAFLEET_DEPLOYMENT_DATE" →
  (filter_dedupe json o1 s1).2 = (filter_dedupe json o2 s2).2 ∧
  (filter_dedupe json o1 s1).1 = s1 ∧
  (filter_dedupe json o2 s2).1 = s2.
Proof.
  intros Henv. rewrite !filter_dedupe_eq, Henv. done.
Qed.

(** C10.  The frame left by lines 24-30 is a subsequence of the catalog
    response, and a row is in it exactly when it is incremental and no
    incremental row before it in the response has its filename: among rows
    with one filename the first of the response order is kept, whatever
    the identifiers are. *)
Theorem dedupe_keeps_first_of_response_order (json df : list Row) :
  incremental_unique json = Ok df →
  df `sublist_of` json ∧
  ∀ r, r ∈ df ↔
    ∃ before after,
      json = before ++ r :: after ∧
      batchType r = "incremental" ∧
      (∀ r', r' ∈ before → batchType r' = "incremental" →
             filename r' ≠ filename r).
Proof.
  intros [_ ->]%incremental_unique_kept. split; [apply kept_from_sublist|].
  intros r. rewrite kept_from_first. split.
  - intros (before & after & ? & ? & _ & ?). by exists before, after.
  - intros (before & after & ? & ? & ?). exists before, after.
    by repeat split.
Qed.

(** ** The script before the loop, case by case *)

Lemma prepare_eq o s :
  prepare o s =
    match environ o !! "TIINGO_API_KEY" with
    | None => (s, Raise (KeyError "TIINGO_API_KEY"))
    | Some key =>
        match mkdir_raises o with
        | Some e => (traced s [EvMkdir], Raise e)
        | None =>
            let fetched :=
              traced s [EvMkdir; EvPrint MsgDownloadList;
                        EvGet (bulk_download_url key)] in
            match get_json o (bulk_download_url key) with
            | Raise e => (fetched, Raise e)
            | Ok json =>
                match (filter_dedupe json o fetched).2 with
                | Raise e => (fetched, Raise e)
                | Ok df =>
                    let files :=
                      set_iteration o
                        (diff df (elements
                                    (filter (λ name, matches_tar_gz name)
                                            (folder s)))) in
                    (traced s (prelude key (length files)), Ok (df, files))
                end
            end
        end
    end.
Proof.
  unfold prepare, environ_get, mkdir, requests_get_json, glob_tar_gz,
    list_of_set, listing, print, emit, ask, lift, raise, traced, prelude,
    mbind, M_bind, mret, M_ret; simpl.
  destruct (environ o !! "TIINGO_API_KEY") as [key|]; [|done].
  destruct (mkdir_raises o) as [e|]; [done|].
  destruct (get_json o (bulk_download_url key)) as [json|e]; simpl;
    [|by rewrite <- !app_assoc].
  rewrite !filter_dedupe_eq; simpl.
  destruct (df ← incremental_unique json; _) as [df|e]; simpl;
    by rewrite <- !app_assoc.
Qed.

Lemma main_eq o s :
  main o s =
    match prepare o s with
    | (s1, Ok (df, files_to_download)) =>
        match for_each files_to_download (download df) o s1 with
        | (s2, Ok _) => (traced s2 [EvPrint MsgDone], Ok tt)
        | (s2, Raise e) => (s2, Raise e)
        end
    | (s1, Raise e) => (s1, Raise e)
    end.
Proof.
  unfold main, mbind at 1, M_bind.
  destruct (prepare o s) as [s1 [[df files]|e]]; [|done].
  unfold mbind, M_bind.
  by destruct (for_each files (download df) o s1) as [s2 [[]|e]].
Qed.

(** ** One turn of the loop, case by case *)

Lemma rows_named_spec df bulk_file r :
  r ∈ rows_named df bulk_file ↔ r ∈ df ∧ filename r = bulk_file.
Proof.
  unfold rows_named. induction df as [|r0 df IH]; simpl.
  - rewrite elem_of_nil. tauto.
  - destruct (String.eqb (filename r0) bulk_file) eqn:Heq.
    + apply String.eqb_eq in Heq. rewrite !elem_of_cons, IH.
      split; [intros [->|[? ?]]; auto | tauto].
    + apply String.eqb_neq in Heq. rewrite elem_of_cons, IH.
      split; [tauto | intros [[->|?] ?]; [done | tauto]].
Qed.

Lemma rows_named_head df bulk_file r rest :
  rows_named df bulk_file = r :: rest → r ∈ df ∧ filename r = bulk_file.
Proof.
  intros H. apply rows_named_spec. rewrite H. apply elem_of_cons; by left.
Qed.

Lemma download_eq df bulk_file o s :
  download df bulk_file o s =
    match rows_named df bulk_file with
    | [] => (s, Raise IndexError)
    | r :: _ =>
        let attempted :=
          traced s [EvPrint (MsgDownload (filename r));
                    EvUrlretrieve (url r) (filename r)] in
        match urlretrieve_raises o (url r) (filename r) with
        | None =>
            (mkState (if is_component (filename r)
                      then {[filename r]} ∪ folder s else folder s)
                     (trace attempted),
             Ok tt)
        | Some e =>
            if is_HTTPError e
            then (traced attempted [EvPrint (MsgNotFound (url r) e)], Ok tt)
            else (attempted, Raise e)
        end
    end.
Proof.
  unfold download, rows_named.
  destruct (boolean_index df _) as [|r rest]; [done|].
  unfold try_except, urlretrieve, create_file, print, emit, ask, lift, raise,
    traced, mbind, M_bind, mret, M_ret; simpl.
  destruct (urlretrieve_raises o (url r) (filename r)) as [e|]; simpl.
  - destruct (is_HTTPError e); by rewrite <- !app_assoc.
  - by rewrite <- !app_assoc.
Qed.

Lemma for_each_cons {A} (x : A) xs (body : A → M unit) o s :
  for_each (x :: xs) body o s =
    match body x o s with
    | (s1, Ok _) => for_each xs body o s1
    | (s1, Raise e) => (s1, Raise e)
    end.
Proof.
  simpl. unfold mbind, M_bind. by destruct (body x o s) as [s1 [[]|e]].
Qed.

(** ** Nothing is removed *)

Lemma grows_refl s : grows s s.
Proof. split; [by exists [] ; rewrite app_nil_r | done]. Qed.

Lemma grows_trans s1 s2 s3 : grows s1 s2 → grows s2 s3 → grows s1 s3.
Proof.
  intros [[k1 Ht1] Hf1] [[k2 Ht2] Hf2]. split.
  - exists (k1 ++ k2). by rewrite Ht2, Ht1, app_assoc.
  - by etransitivity.
Qed.

Lemma grows_traced s evs : grows s (traced s evs).
Proof. split; [by exists evs | done]. Qed.

Lemma grows_elem_of s s' ev : grows s s' → ev ∈ trace s → ev ∈ trace s'.
Proof.
  intros [[more ->] _] Hin. apply elem_of_app; by left.
Qed.

Lemma download_grows df bulk_file o s : grows s (download df bulk_file o s).1.
Proof.
  rewrite download_eq.
  destruct (rows_named df bulk_file) as [|r rest]; [apply grows_refl|].
  simpl. destruct (urlretrieve_raises o (url r) (filename r)) as [e|].
  - destruct (is_HTTPError e); simpl.
    + eapply grows_trans; apply grows_traced.
    + apply grows_traced.
  - split; simpl; [by eexists|].
    destruct (is_component (filename r)); [apply union_subseteq_r | done].
Qed.

Lemma for_each_download_grows df files o s :
  grows s (for_each files (download df) o s).1.
Proof.
  revert s; induction files as [|f files IH]; intros s.
  - apply grows_refl.
  - rewrite for_each_cons.
    pose proof (download_grows df f o s) as Hstep.
    destruct (download df f o s) as [s1 [[]|e]]; simpl in *; [|done].
    eapply grows_trans; [exact Hstep | apply IH].
Qed.

(** A loop that ran to its end attempted every file, and holds every file
    whose transfer succeeded under a single-component name. *)
Lemma loop_completed df files o s s' :
  for_each files (download df) o s = (s', Ok tt) →
  ∀ f, f ∈ files →
    ∃ u, EvUrlretrieve u f ∈ trace s' ∧
         (urlretrieve_raises o u f = None → is_component f = true →
          f ∈ folder s').
Proof.
  revert s; induction files as [|f0 files IH]; intros s Hloop f Hf.
  { by apply elem_of_nil in Hf. }
  rewrite for_each_cons, download_eq in Hloop.
  destruct (rows_named df f0) as [|r rest] eqn:Hrow; [done|].
  apply rows_named_head in Hrow as [_ Hname]. rewrite Hname in Hloop.
  simpl in Hloop.
  assert (∀ s1, for_each files (download df) o s1 = (s', Ok tt) →
                EvUrlretrieve (url r) f0 ∈ trace s1 →
                (urlretrieve_raises o (url r) f0 = None →
                 is_component f0 = true → f0 ∈ folder s1) →
                ∃ u, EvUrlretrieve u f ∈ trace s' ∧
                     (urlretrieve_raises o u f = None → is_component f = true →
                      f ∈ folder s')) as Hnext.
  { intros s1 Hrest Hev Hfile.
    apply elem_of_cons in Hf as [->|Hf]; [|by eapply IH].
    pose proof (for_each_download_grows df files o s1) as Hgrow.
    rewrite Hrest in Hgrow; simpl in Hgrow.
    exists (url r). split; [by eapply grows_elem_of|].
    intros Hok Hcomp. destruct Hgrow as [_ Hsub]. apply Hsub. by apply Hfile. }
  destruct (urlretrieve_raises o (url r) f0) as [e|] eqn:Hraise.
  - destruct (is_HTTPError e); [|done].
    apply (Hnext _ Hloop); [|done].
    simpl. rewrite !elem_of_app, !elem_of_cons. tauto.
  - apply (Hnext _ Hloop); simpl.
    + rewrite !elem_of_app, !elem_of_cons. tauto.
    + intros _ ->. apply elem_of_union_l, elem_of_singleton. done.
Qed.

Lemma set_iteration_elem_of o X f :
  set_iteration_ok o → f ∈ set_iteration o X ↔ f ∈ X.
Proof. intros Hok. by rewrite (Hok X), elem_of_elements. Qed.

Lemma set_iteration_empty o : set_iteration_ok o → set_iteration o ∅ = [].
Proof.
  intros Hok. apply Permutation_nil_r. by rewrite (Hok ∅), elements_empty.
Qed.

Lemma elem_of_glob (names : gset string) f :
  f ∈ elements (filter (λ name, matches_tar_gz name) names) ↔
  matches_tar_gz f = true ∧ f ∈ names.
Proof.
  rewrite elem_of_elements, elem_of_filter.
  by destruct (matches_tar_gz f); simpl; intuition.
Qed.

(** ** Properties of the whole script *)

(** C2, as the code has it.  When the transfer of one file raises, the
    loop goes on with the next file exactly when the exception is an
    HTTPError (of any status, "not found" included), after logging it; any
    other exception leaves the loop at once, with no event for the files
    that were still to come. *)
Theorem download_loop_error_policy
    (df : list Row) (bulk_file : string) (files : list string)
    (o : Oracle) (s : State) (r : Row) (rest : list Row) (e : exn) :
  rows_named df bulk_file = r :: rest →
  urlretrieve_raises o (url r) (filename r) = Some e →
  let attempted :=
    traced s [EvPrint (MsgDownload (filename r));
              EvUrlretrieve (url r) (filename r)] in
  let logged := traced attempted [EvPrint (MsgNotFound (url r) e)] in
  (is_not_found e = true →
     for_each (bulk_file :: files) (download df) o s =
     for_each files (download df) o logged) ∧
  (is_HTTPError e = true →
     for_each (bulk_file :: files) (download df) o s =
     for_each files (download df) o logged) ∧
  (is_HTTPError e = false →
     for_each (bulk_file :: files) (download df) o s = (attempted, Raise e)).
Proof.
  intros Hrow Hraise attempted logged.
  assert (is_HTTPError e = true →
          for_each (bulk_file :: files) (download df) o s =
          for_each files (download df) o logged) as Hcaught.
  { intros Hhttp. by rewrite for_each_cons, download_eq, Hrow, Hraise, Hhttp. }
  repeat split.
  - intros Hnf. apply Hcaught. by destruct e.
  - exact Hcaught.
  - intros Hother. by rewrite for_each_cons, download_eq, Hrow, Hraise, Hother.
Qed.

(** C8.  Without TIINGO_API_KEY in the environment the script stops with
    KeyError before it has done anything: no event, the folder as it was.
    With the key present the read returns it and the script goes on: its
    next action, the mkdir, is in the trace. *)
Theorem api_key_is_read_first (o : Oracle) (s : State) :
  match environ o !! "TIINGO_API_KEY" with
  | None => main o s = (s, Raise (KeyError "TIINGO_API_KEY"))
  | Some key =>
      environ_get "TIINGO_API_KEY" o s = (s, Ok key) ∧
      ∃ later, trace (main o s).1 = trace s ++ EvMkdir :: later
  end.
Proof.
  rewrite main_eq, prepare_eq. unfold environ_get, ask, mbind, M_bind.
  destruct (environ o !! "TIINGO_API_KEY") as [key|]; [|done].
  split; [done|].
  destruct (mkdir_raises o) as [e|]; [by exists []|].
  destruct (get_json o (bulk_download_url key)) as [json|e]; [|by eexists].
  simpl. destruct (filter_dedupe json o _).2 as [df|e]; [|by eexists].
  match goal with |- context [for_each ?fs (download df) o ?s1] =>
    pose proof (for_each_download_grows df fs o s1) as [[more Hmore] _];
    destruct (for_each fs (download df) o s1) as [s2 [[]|e]]
  end; simpl in *; rewrite Hmore, <- ?app_assoc; by eexists.
Qed.

(** C7, with the proviso the scan needs.  Let a first run come to its end
    with every attempted transfer successful, and let every file it fetched
    have a single-component name that matches *.tar.gz.  Then a second run
    from the folder the first one left, against the same answers, finds
    nothing to download: its list of files is empty, it attempts no
    transfer, and it ends normally with the folder as it was. *)
Theorem second_run_downloads_nothing
    (o : Oracle) (names : gset string) (s1 : State) :
  set_iteration_ok o →
  run o names = (s1, Ok tt) →
  (∀ u f, EvUrlretrieve u f ∈ trace s1 →
          urlretrieve_raises o u f = None ∧
          is_component f = true ∧ matches_tar_gz f = true) →
  ∃ s2 df,
    prepare o (mkState (folder s1) []) = (s2, Ok (df, [])) ∧
    run o (folder s1) = (traced s2 [EvPrint MsgDone], Ok tt) ∧
    folder s2 = folder s1 ∧
    ∀ u f, EvUrlretrieve u f ∉ trace s2.
Proof.
  intros Hiter Hrun Hfiles. unfold run in *.
  rewrite main_eq, prepare_eq in Hrun.
  destruct (environ o !! "TIINGO_API_KEY") as [key|] eqn:Hkey; [|done].
  destruct (mkdir_raises o) as [e|] eqn:Hmkdir; [done|].
  destruct (get_json o (bulk_download_url key)) as [json|e] eqn:Hjson; [|done].
  simpl in Hrun. rewrite filter_dedupe_eq in Hrun. simpl in Hrun.
  destruct (df ← incremental_unique json; _) as [df|e] eqn:Hdf; [|done].
  set (files := set_iteration o (diff df _)) in Hrun.
  destruct (for_each files (download df) o _) as [sl [[]|e]] eqn:Hloop; [|done].
  injection Hrun as <-. simpl in *.
  match type of Hloop with
  | for_each _ _ _ ?s0 = _ =>
      pose proof (for_each_download_grows df files o s0) as Hgrow
  end.
  rewrite Hloop in Hgrow. destruct Hgrow as [_ Hkeep]. simpl in Hkeep.
  assert (diff df (elements (filter (λ name, matches_tar_gz name) (folder sl)))
          = ∅) as Hnone.
  { apply elem_of_equiv_empty_L. intros f Hf.
    unfold diff in Hf. rewrite !elem_of_difference in Hf.
    destruct Hf as [[Hcat Hnew] Hdeny].
    rewrite elem_of_list_to_set, elem_of_glob in Hnew. apply Hnew.
    destruct (decide (matches_tar_gz f = true ∧ f ∈ names)) as [[Hm Hin]|Hold].
    { split; [done | by apply Hkeep]. }
    assert (f ∈ files) as Hfile.
    { apply set_iteration_elem_of; [done|]. unfold diff.
      rewrite !elem_of_difference, !elem_of_list_to_set, elem_of_glob.
      rewrite elem_of_list_to_set in Hcat, Hdeny. done. }
    destruct (loop_completed _ _ _ _ _ Hloop f Hfile) as (u & Hev & Hthere).
    destruct (Hfiles u f) as (Hok & Hcomp & Hm).
    { apply elem_of_app; by left. }
    split; [done | by apply Hthere]. }
  exists (traced (mkState (folder sl) []) (prelude key 0)), df.
  assert (prepare o (mkState (folder sl) []) =
          (traced (mkState (folder sl) []) (prelude key 0), Ok (df, [])))
    as Hprepare.
  { rewrite prepare_eq, Hkey, Hmkdir, Hjson. simpl.
    rewrite filter_dedupe_eq. simpl. rewrite Hdf. simpl.
    by rewrite Hnone, set_iteration_empty. }
  repeat split.
  - exact Hprepare.
  - by rewrite main_eq, Hprepare.
  - intros u f Hev. simpl in Hev.
    repeat (apply elem_of_cons in Hev as [Hev|Hev]; [done|]).
    by apply elem_of_nil in Hev.
Qed.

(** ** Further facts about Filter & Dedupe *)

Lemma kept_from_covers seen json r :
  r ∈ json → batchType r = "incremental" → filename r ∉ seen →
  ∃ r1, r1 ∈ kept_from seen json ∧ filename r1 = filename r.
Proof.
  revert seen; induction json as [|r0 json IH]; intros seen Hin Hinc Hfresh.
  { by apply elem_of_nil in Hin. }
  rewrite kept_from_cons.
  apply elem_of_cons in Hin as [<-|Hin].
  - apply is_incremental_spec in Hinc. rewrite Hinc.
    rewrite bool_decide_eq_false_2 by done.
    exists r. split; [apply elem_of_cons; by left | done].
  - destruct (is_incremental r0) eqn:Hinc0; [|by apply IH].
    destruct (decide (filename r0 = filename r)) as [Heq|Hne].
    + destruct (bool_decide (filename r0 ∈ seen)) eqn:Hseen.
      * apply bool_decide_eq_true in Hseen. congruence.
      * exists r0. split; [apply elem_of_cons; by left | done].
    + destruct (IH ({[filename r0]} ∪ seen) Hin Hinc) as (r1 & Hr1 & Hname).
      { apply not_elem_of_union. split; [|done].
        apply not_elem_of_singleton. congruence. }
      exists r1. split; [|done].
      destruct (bool_decide (filename r0 ∈ seen)); [done|].
      apply elem_of_cons; by right.
Qed.

Lemma filter_dedupe_NoDup json o s out :
  (filter_dedupe json o s).2 = Ok out → NoDup (map filename out).
Proof.
  intros [_ H]%filter_dedupe_Ok.
  destruct (environ o !! "QC_DATAFLEET_DEPLOYMENT_DATE") as [text|].
  - destruct H as (D & df2 & _ & Hnorm & Hq).
    assert (map filename out `sublist_of` map filename df2) as Hsub.
    { apply (fmap_sublist filename). by eapply query_window_sublist. }
    eapply sublist_NoDup; [|exact Hsub].
    rewrite (Forall2_normalised_column filename _ _
               (λ _ _ H, proj1 (proj2 (proj1 H))) Hnorm).
    apply kept_from_NoDup.
  - subst out. apply kept_from_NoDup.
Qed.

(** Every row of the stage's frame comes from the first incremental entry
    of its filename in the response. *)
Lemma filter_dedupe_source json o s out r :
  (filter_dedupe json o s).2 = Ok out → r ∈ out →
  ∃ before r0 after,
    json = before ++ r0 :: after ∧
    batchType r0 = "incremental" ∧
    (∀ r', r' ∈ before → batchType r' = "incremental" →
           filename r' ≠ filename r0) ∧
    same_entry r0 r ∧
    match environ o !! "QC_DATAFLEET_DEPLOYMENT_DATE" with
    | None => r = r0
    | Some _ => normalised r0 r
    end.
Proof.
  intros [_ H]%filter_dedupe_Ok Hin.
  destruct (environ o !! "QC_DATAFLEET_DEPLOYMENT_DATE") as [text|].
  - destruct H as (D & df2 & _ & Hnorm & Hq).
    assert (r ∈ df2) as Hin2.
    { eapply elem_of_sublist; [done | by eapply query_window_sublist]. }
    destruct (Forall2_normalised_source _ _ _ Hnorm Hin2) as (r0 & Hr0 & Hn).
    apply kept_from_first in Hr0 as (before & after & -> & Hinc & _ & Hfirst).
    exists before, r0, after.
    split; [done|]. split; [done|]. split; [done|].
    split; [by destruct Hn | done].
  - subst out.
    apply kept_from_first in Hin as (before & after & -> & Hinc & _ & Hfirst).
    exists before, r, after.
    split; [done|]. split; [done|]. split; [done|]. by split.
Qed.

Lemma query_window_complete D df out r :
  query_window D df = Ok out → r ∈ df → in_window D r = Ok true → r ∈ out.
Proof.
  revert out; induction df as [|r1 df IH]; intros out; simpl.
  - intros _ Hin. by apply elem_of_nil in Hin.
  - destruct (in_window D r1) as [keep|e] eqn:Hw; simpl; [|done].
    destruct (query_window D df) as [out'|e]; simpl; [|done].
    intros [= <-] Hin Hr. apply elem_of_cons in Hin as [->|Hin].
    + assert (keep = true) as -> by congruence. apply elem_of_cons; by left.
    + destruct keep; [apply elem_of_cons; right|]; by apply IH.
Qed.

Lemma Forall2_normalised_image df df2 r0 :
  Forall2 normalised df df2 → r0 ∈ df → ∃ r, r ∈ df2 ∧ normalised r0 r.
Proof.
  intros H; induction H as [|r1 r2 df df2 Hr _ IH].
  - intros Hin. by apply elem_of_nil in Hin.
  - intros Hin. apply elem_of_cons in Hin as [->|Hin].
    + exists r2. split; [apply elem_of_cons; by left | done].
    + destruct (IH Hin) as (r & ? & ?).
      exists r. split; [apply elem_of_cons; by right | done].
Qed.



(** X9.  With no target date, dedupe loses no filename: the filenames of
    the stage's frame are exactly the filenames that have an incremental
    entry in the response. *)
Theorem dedupe_loses_no_filename
    (json : list Row) (o : Oracle) (s : State) (out : list Row) :
  environ o !! "QC_DATAFLEET_DEPLOYMENT_DATE" = None →
  (filter_dedupe json o s).2 = Ok out →
  ∀ f, f ∈ map filename out ↔
       ∃ r, r ∈ json ∧ batchType r = "incremental" ∧ filename r = f.
Proof.
  intros Henv [_ H]%filter_dedupe_Ok f. rewrite Henv in H. subst out.
  split.
  - intros (r & -> & Hr)%list_elem_of_fmap. exists r. repeat split.
    + eapply elem_of_sublist; [done | apply kept_from_sublist].
    + by eapply kept_from_incremental.
  - intros (r & Hr & Hinc & <-).
    destruct (kept_from_covers ∅ json r Hr Hinc) as (r1 & Hr1 & <-).
    { apply not_elem_of_empty. }
    apply list_elem_of_fmap. by exists r1.
Qed.

(** X10.  With a target date D, the window drops nothing it should keep:
    every row left by lines 24-30 whose startDate and endDate, as UTC
    calendar days, satisfy startDate <= D <= endDate is in the stage's frame,
    with its two date cells replaced by those days. *)
Theorem date_window_keeps_rows_in_range
    (json : list Row) (o : Oracle) (s : State) (out df0 : list Row)
    (text : string) (D sd ed : date) (r0 : Row) :
  environ o !! "QC_DATAFLEET_DEPLOYMENT_DATE" = Some text →
  strptime_Ymd text = Some D →
  (filter_dedupe json o s).2 = Ok out →
  incremental_unique json = Ok df0 → r0 ∈ df0 →
  cell_utc_date (startDate r0) = Ok sd →
  cell_utc_date (endDate r0) = Ok ed →
  date_le sd D = true → date_le D ed = true →
  ∃ r, r ∈ out ∧ same_entry r0 r ∧
       startDate r = DayDate sd ∧ endDate r = DayDate ed.
Proof.
  intros Henv HD [_ H]%filter_dedupe_Ok [_ ->]%incremental_unique_kept
    Hr0 Hs He Hle1 Hle2.
  rewrite Henv in H. destruct H as (D' & df2 & HD' & Hnorm & Hq).
  assert (D' = D) as -> by congruence.
  destruct (Forall2_normalised_image _ _ _ Hnorm Hr0)
    as (r & Hr & Hsame & sd' & ed' & Hs' & He' & Hrs & Hre).
  assert (sd' = sd) as -> by congruence.
  assert (ed' = ed) as -> by congruence.
  exists r. repeat split; try done; try apply Hsame.
  eapply query_window_complete; [done..|].
  unfold in_window. by rewrite Hrs, Hre, Hle1, Hle2.
Qed.

(** X12.  A target date that strptime rejects stops the stage with
    ValueError, unless the response was empty, in which case the KeyError of
    set_index comes first; either way the state is untouched and no
    timestamp of the catalog has been looked at. *)
Theorem unparsable_target_date_raises
    (json : list Row) (o : Oracle) (s : State) (text : string) :
  environ o !! "QC_DATAFLEET_DEPLOYMENT_DATE" = Some text →
  strptime_Ymd text = None →
  filter_dedupe json o s =
    (s, Raise (match json with
               | [] => KeyError "id"
               | _ => ValueError text
               end)).
Proof.
  intros Henv Hbad. rewrite filter_dedupe_eq, Henv.
  destruct json as [|r json]; [done|].
  change (incremental_unique (r :: json)) with (Ok (kept_from ∅ (r :: json))).
  simpl. by rewrite Hbad.
Qed.

(** X14.  Dedupe comes before the date window: whatever the target date,
    a row of the stage's frame stems from the first incremental entry of its
    filename in the response; a later entry of that filename is never the
    one that survives. *)
Theorem surviving_row_is_first_listed_entry
    (json : list Row) (o : Oracle) (s : State) (out : list Row) (r : Row) :
  (filter_dedupe json o s).2 = Ok out → r ∈ out →
  ∃ before r0 after,
    json = before ++ r0 :: after ∧
    batchType r0 = "incremental" ∧
    (∀ r', r' ∈ before → batchType r' = "incremental" →
           filename r' ≠ filename r0) ∧
    same_entry r0 r.
Proof.
  intros Hout Hin.
  destruct (filter_dedupe_source _ _ _ _ _ Hout Hin)
    as (before & r0 & after & ? & ? & ? & ? & _).
  by exists before, r0, after.
Qed.


(** ** Further facts about the whole script *)

Lemma attempted_app evs evs' :
  attempted (evs ++ evs') = attempted evs ++ attempted evs'.
Proof.
  induction evs as [|ev evs IH]; [done|].
  destruct ev; simpl; by rewrite IH.
Qed.

Lemma elem_of_attempted evs f :
  f ∈ attempted evs ↔ ∃ u, EvUrlretrieve u f ∈ evs.
Proof.
  induction evs as [|ev evs IH].
  - split; [intros H; by apply elem_of_nil in H|].
    intros [u H]. by apply elem_of_nil in H.
  - split.
    + intros Hin.
      assert (f ∈ attempted evs → ∃ u, EvUrlretrieve u f ∈ ev :: evs) as Hrest.
      { intros [u Hu]%IH. exists u. apply elem_of_cons; by right. }
      destruct ev as [| | | |u0 f0]; simpl in Hin; try by apply Hrest.
      apply elem_of_cons in Hin as [->|Hin]; [|by apply Hrest].
      exists u0. apply elem_of_cons; by left.
    + intros [u Hu]. apply elem_of_cons in Hu as [<-|Hu].
      * simpl. apply elem_of_cons; by left.
      * assert (f ∈ attempted evs) as Hin by (apply IH; by exists u).
        destruct ev; simpl; try done. apply elem_of_cons; by right.
Qed.

Lemma prepare_Ok o s s1 df files :
  prepare o s = (s1, Ok (df, files)) →
  ∃ key json,
    environ o !! "TIINGO_API_KEY" = Some key ∧
    mkdir_raises o = None ∧
    get_json o (bulk_download_url key) = Ok json ∧
    (∀ s0, (filter_dedupe json o s0).2 = Ok df) ∧
    files = set_iteration o (diff df (scan (folder s))) ∧
    s1 = traced s (prelude key (length files)).
Proof.
  rewrite prepare_eq.
  destruct (environ o !! "TIINGO_API_KEY") as [key|]; [|done].
  destruct (mkdir_raises o) as [e|]; [done|].
  destruct (get_json o (bulk_download_url key)) as [json|e] eqn:Hjson; [|done].
  simpl. rewrite filter_dedupe_eq. simpl.
  destruct (df0 ← incremental_unique json; _) as [df'|e] eqn:Hdf; [|done].
  intros [= <- <- <-]. exists key, json. repeat split; try done.
  intros s0. by rewrite filter_dedupe_eq.
Qed.


Lemma prepare_quiet o s :
  folder (prepare o s).1 = folder s ∧
  attempted (trace (prepare o s).1) = attempted (trace s).
Proof.
  rewrite prepare_eq.
  destruct (environ o !! "TIINGO_API_KEY") as [key|]; [|done].
  destruct (mkdir_raises o) as [e|].
  { simpl. by rewrite attempted_app, app_nil_r. }
  destruct (get_json o (bulk_download_url key)) as [json|e].
  2:{ simpl. by rewrite attempted_app, app_nil_r. }
  simpl. destruct (filter_dedupe json o _).2 as [df|e];
    simpl; by rewrite attempted_app, app_nil_r.
Qed.

Lemma prepare_grows o s : grows s (prepare o s).1.
Proof.
  rewrite prepare_eq.
  destruct (environ o !! "TIINGO_API_KEY") as [key|]; [|apply grows_refl].
  destruct (mkdir_raises o) as [e|]; [apply grows_traced|].
  destruct (get_json o (bulk_download_url key)) as [json|e];
    [|apply grows_traced].
  simpl. destruct (filter_dedupe json o _).2 as [df|e]; apply grows_traced.
Qed.

Lemma rows_named_absent df f : f ∉ map filename df → rows_named df f = [].
Proof.
  intros Hnot. destruct (rows_named df f) as [|r rest] eqn:Hrows; [done|].
  apply rows_named_head in Hrows as [Hin <-].
  destruct Hnot. apply list_elem_of_fmap. by exists r.
Qed.

Lemma rows_named_unique df f :
  NoDup (map filename df) → f ∈ map filename df →
  ∃ r, rows_named df f = [r] ∧ filename r = f.
Proof.
  unfold rows_named. induction df as [|r0 df IH]; simpl; intros Hnodup Hin.
  { by apply elem_of_nil in Hin. }
  apply NoDup_cons in Hnodup as [Hfresh Hnodup].
  destruct (String.eqb (filename r0) f) eqn:Heq.
  - apply String.eqb_eq in Heq. subst f.
    exists r0. split; [|done]. f_equal. by apply rows_named_absent.
  - apply String.eqb_neq in Heq.
    apply elem_of_cons in Hin as [Hin|Hin]; [congruence | by apply IH].
Qed.

(** What the loop writes and what it adds to the folder, however it ends. *)
Lemma loop_events df files o s :
  ∃ evs,
    trace (for_each files (download df) o s).1 = trace s ++ evs ∧
    ∀ u f, EvUrlretrieve u f ∈ evs →
           f ∈ files ∧ ∃ r, r ∈ df ∧ filename r = f ∧ url r = u.
Proof.
  revert s; induction files as [|f0 files IH]; intros s.
  { exists []. split; [by rewrite app_nil_r|].
    intros u f H. by apply elem_of_nil in H. }
  rewrite for_each_cons, download_eq.
  destruct (rows_named df f0) as [|r rest] eqn:Hrow.
  { exists []. split; [by rewrite app_nil_r|].
    intros u f H. by apply elem_of_nil in H. }
  apply rows_named_head in Hrow as [Hr Hname].
  assert (∀ s1 more,
            trace s1 = trace s ++
              [EvPrint (MsgDownload (filename r));
               EvUrlretrieve (url r) (filename r)] ++ more →
            (∀ u f, EvUrlretrieve u f ∉ more) →
            ∃ evs,
              trace (for_each files (download df) o s1).1 = trace s ++ evs ∧
              ∀ u f, EvUrlretrieve u f ∈ evs →
                     f ∈ f0 :: files ∧
                     ∃ r, r ∈ df ∧ filename r = f ∧ url r = u) as Hnext.
  { intros s1 more Htrace Hmore.
    destruct (IH s1) as (evs & Hevs & Hin).
    exists ([EvPrint (MsgDownload (filename r));
             EvUrlretrieve (url r) (filename r)] ++ more ++ evs).
    split; [by rewrite Hevs, Htrace, <- !app_assoc|].
    intros u f Hev. simpl in Hev.
    apply elem_of_cons in Hev as [Hev|Hev]; [done|].
    apply elem_of_cons in Hev as [Hev|Hev].
    - injection Hev as -> ->. split; [apply elem_of_cons; by left|].
      by exists r.
    - apply elem_of_app in Hev as [Hev|Hev]; [by destruct (Hmore u f)|].
      destruct (Hin u f Hev) as [? ?].
      split; [apply elem_of_cons; by right | done]. }
  simpl. destruct (urlretrieve_raises o (url r) (filename r)) as [e|].
  - destruct (is_HTTPError e).
    + apply (Hnext _ [EvPrint (MsgNotFound (url r) e)]).
      * simpl. by rewrite <- app_assoc.
      * intros u f H. apply elem_of_cons in H as [H|H]; [done|].
        by apply elem_of_nil in H.
    + eexists. split; [done|].
      intros u f Hev.
      apply elem_of_cons in Hev as [Hev|Hev]; [done|].
      apply elem_of_cons in Hev as [Hev|Hev]; [|by apply elem_of_nil in Hev].
      injection Hev as -> ->. split; [apply elem_of_cons; by left|].
      by exists r.
  - apply (Hnext _ []).
    + simpl. done.
    + intros u f H. by apply elem_of_nil in H.
Qed.


Lemma loop_attempted df files o s :
  ∃ tried,
    attempted (trace (for_each files (download df) o s).1) =
      attempted (trace s) ++ tried ∧
    tried `prefix_of` files ∧
    ((for_each files (download df) o s).2 = Ok tt → tried = files).
Proof.
  revert s; induction files as [|f0 files IH]; intros s.
  { exists []. by rewrite app_nil_r. }
  rewrite for_each_cons, download_eq.
  destruct (rows_named df f0) as [|r rest] eqn:Hrow.
  { exists []. rewrite app_nil_r. repeat split; [apply prefix_nil | done]. }
  apply rows_named_head in Hrow as [_ Hname]. rewrite Hname. simpl.
  assert (∀ s1,
            attempted (trace s1) = attempted (trace s) ++ [f0] →
            ∃ tried,
              attempted (trace (for_each files (download df) o s1).1) =
                attempted (trace s) ++ tried ∧
              tried `prefix_of` f0 :: files ∧
              ((for_each files (download df) o s1).2 = Ok tt →
               tried = f0 :: files)) as Hnext.
  { intros s1 Hs1. destruct (IH s1) as (tried & Htried & Hpre & Hall).
    exists (f0 :: tried). rewrite Htried, Hs1, <- app_assoc.
    repeat split; [by apply prefix_cons|].
    intros Hok. by rewrite Hall. }
  destruct (urlretrieve_raises o (url r) f0) as [e|].
  - destruct (is_HTTPError e).
    + apply Hnext. simpl. rewrite !attempted_app. simpl. by rewrite app_nil_r.
    + exists [f0]. simpl. rewrite attempted_app. simpl.
      repeat split; [|done]. apply prefix_cons, prefix_nil.
  - apply Hnext. simpl. by rewrite attempted_app.
Qed.

Lemma substring_skip stem rest k :
  String.substring (String.length stem) k (stem +:+ rest) =
  String.substring 0 k rest.
Proof using Type. induction stem as [|c stem IH]; [done | exact IH]. Qed.

Lemma substring_whole text :
  String.substring 0 (String.length text) text = text.
Proof using Type. induction text as [|c text IH]; [done | simpl; by rewrite IH]. Qed.

Lemma length_append stem rest :
  String.length (stem +:+ rest) = (String.length stem + String.length rest)%nat.
Proof using Type. induction stem as [|c stem IH]; [done | simpl; by rewrite IH]. Qed.

Lemma substring_split m text :
  (m ≤ String.length text)%nat →
  text = String.substring 0 m text +:+
         String.substring m (String.length text - m) text.
Proof using Type.
  revert m; induction text as [|c text IH]; intros m Hm.
  - destruct m; [done | simpl in Hm; lia].
  - destruct m as [|m].
    + simpl. by rewrite substring_whole.
    + simpl in Hm.
      change (String c text =
              String c (String.substring 0 m text +:+
                        String.substring m (String.length text - m) text)).
      f_equal. apply IH. lia.
Qed.

(** X1.  An empty catalog response is fatal: the frame built from it has no
    id column, so set_index raises KeyError after the mkdir and the catalog
    request, and before the scan or any transfer. *)
Theorem empty_catalog_raises_KeyError
    (o : Oracle) (s : State) (key : string) :
  environ o !! "TIINGO_API_KEY" = Some key →
  mkdir_raises o = None →
  get_json o (bulk_download_url key) = Ok [] →
  main o s =
    (traced s [EvMkdir; EvPrint MsgDownloadList; EvGet (bulk_download_url key)],
     Raise (KeyError "id")).
Proof.
  intros Hkey Hmkdir Hjson.
  rewrite main_eq, prepare_eq, Hkey, Hmkdir, Hjson. cbv zeta.
  by rewrite filter_dedupe_eq.
Qed.

(** X2.  Every file the loop is about to fetch selects exactly one row of
    the frame, so values[0] at lines 47-48 never raises IndexError and the
    URL taken is the only one the frame has for that filename. *)
Theorem each_file_resolves_to_one_row
    (o : Oracle) (s s1 : State) (df : list Row) (files : list string)
    (f : string) :
  set_iteration_ok o →
  prepare o s = (s1, Ok (df, files)) → f ∈ files →
  ∃ r, rows_named df f = [r] ∧ filename r = f.
Proof.
  intros Hiter (key & json & _ & _ & _ & Hdf & -> & _)%prepare_Ok Hf.
  apply set_iteration_elem_of in Hf; [|done].
  unfold diff in Hf. rewrite !elem_of_difference, elem_of_list_to_set in Hf.
  apply rows_named_unique; [|tauto].
  exact (filter_dedupe_NoDup _ _ _ _ (Hdf s)).
Qed.

(** X3.  The script removes nothing: however a run ends, the trace it
    started with is a prefix of the final one and every name that was in the
    folder is still there. *)
Theorem script_removes_nothing (o : Oracle) (s : State) :
  trace s `prefix_of` trace (main o s).1 ∧ folder s ⊆ folder (main o s).1.
Proof.
  change (grows s (main o s).1). rewrite main_eq.
  pose proof (prepare_grows o s) as Hprep.
  destruct (prepare o s) as [s1 [[df files]|e]]; [|done].
  pose proof (for_each_download_grows df files o s1) as Hloop.
  destruct (for_each files (download df) o s1) as [s2 [[]|e]]; simpl in *.
  - eapply grows_trans; [done|]. eapply grows_trans; [done|]. apply grows_traced.
  - by eapply grows_trans.
Qed.

(** X4.  Every transfer a run attempts is for a filename that the scan did
    not list and that is not on the denylist, and it uses the URL of an
    incremental entry of that filename in the catalog response fetched with
    the key of the environment. *)
Theorem attempted_transfers_are_eligible
    (o : Oracle) (names : gset string) (u f : string) :
  set_iteration_ok o →
  EvUrlretrieve u f ∈ trace (run o names).1 →
  (f ∉ scan names) ∧ (f ∉ known_missing_dates) ∧
  ∃ key json r0,
    environ o !! "TIINGO_API_KEY" = Some key ∧
    get_json o (bulk_download_url key) = Ok json ∧
    r0 ∈ json ∧ batchType r0 = "incremental" ∧
    filename r0 = f ∧ url r0 = u.
Proof.
  intros Hiter. unfold run. rewrite main_eq.
  pose proof (prepare_quiet o (mkState names [])) as [_ Hquiet].
  destruct (prepare o (mkState names [])) as [s1 [[df files]|e]] eqn:Hprep.
  2:{ intros Hev. simpl in *.
      assert (f ∈ attempted (trace s1)) as Hin
        by (apply elem_of_attempted; by exists u).
      rewrite Hquiet in Hin. by apply elem_of_nil in Hin. }
  simpl in Hquiet.
  destruct (prepare_Ok _ _ _ _ _ Hprep)
    as (key & json & Hkey & _ & Hjson & Hdf & -> & _).
  set (files := set_iteration o _) in *.
  destruct (loop_events df files o s1) as (evs & Hevs & Hloop).
  intros Hev.
  assert (EvUrlretrieve u f ∈ evs) as Hin.
  { assert (EvUrlretrieve u f ∈ trace s1 ++ evs) as Hin.
    { rewrite <- Hevs.
      destruct (for_each files (download df) o s1) as [s2 [[]|e]];
        simpl in *; [|done].
      apply elem_of_app in Hev as [Hev|Hev]; [done|].
      apply elem_of_cons in Hev as [Hev|Hev]; [done|].
      by apply elem_of_nil in Hev. }
    apply elem_of_app in Hin as [Hin|Hin]; [|done].
    assert (f ∈ attempted (trace s1)) as Hf
      by (apply elem_of_attempted; by exists u).
    rewrite Hquiet in Hf. by apply elem_of_nil in Hf. }
  destruct (Hloop u f Hin) as (Hfile & r & Hr & Hname & Hurl).
  apply set_iteration_elem_of in Hfile; [|done].
  unfold diff in Hfile.
  rewrite !elem_of_difference, !elem_of_list_to_set in Hfile.
  destruct Hfile as [[_ Hscan] Hdeny].
  split; [done|]. split; [done|].
  destruct (filter_dedupe_source _ _ _ _ _ (Hdf s1) Hr)
    as (before & r0 & after & -> & Hinc & _ & (_ & Hn & Hu & _) & _).
  exists key, (before ++ r0 :: after), r0.
  repeat split; try done; try congruence.
  rewrite elem_of_app, elem_of_cons. tauto.
Qed.

(** X5.  The files a run attempts are an initial part of the list the
    preparation computed, in its order; that list has no repetition, so no
    file is attempted twice; and a run that ends normally has attempted the
    whole list. *)
Theorem each_file_attempted_at_most_once
    (o : Oracle) (names : gset string) (s1 : State) (df : list Row)
    (files : list string) :
  set_iteration_ok o →
  prepare o (mkState names []) = (s1, Ok (df, files)) →
  attempted (trace (run o names).1) `prefix_of` files ∧
  NoDup files ∧
  ((run o names).2 = Ok tt → attempted (trace (run o names).1) = files).
Proof.
  intros Hiter Hprep. unfold run. rewrite main_eq.
  pose proof (prepare_quiet o (mkState names [])) as [_ Hquiet].
  rewrite Hprep in *. simpl in Hquiet.
  destruct (loop_attempted df files o s1) as (tried & Htried & Hpre & Hall).
  rewrite Hquiet in Htried. simpl in Htried.
  assert (NoDup files) as Hnodup.
  { apply prepare_Ok in Hprep as (_ & _ & _ & _ & _ & _ & -> & _).
    rewrite (Hiter _). apply NoDup_elements. }
  destruct (for_each files (download df) o s1) as [s2 [[]|e]]; simpl in *.
  - rewrite attempted_app, Htried, app_nil_r.
    repeat split; [done..|]. intros _. by apply Hall.
  - rewrite Htried. by repeat split.
Qed.



(** X11.  A run that fails before the loop (missing key, mkdir, catalog
    request, empty catalog, target date or timestamps that do not parse)
    ends with that exception, leaves the folder exactly as it was and has
    attempted no transfer. *)
Theorem failure_before_loop_changes_nothing
    (o : Oracle) (s : State) (e : exn) :
  (prepare o s).2 = Raise e →
  (main o s).2 = Raise e ∧
  folder (main o s).1 = folder s ∧
  attempted (trace (main o s).1) = attempted (trace s).
Proof.
  intros Hfail. rewrite main_eq.
  pose proof (prepare_quiet o s) as [Hfolder Hquiet].
  destruct (prepare o s) as [s1 [[df files]|e']]; simpl in *; [done|].
  by injection Hfail as ->.
Qed.

(** X13.  The scan of line 41 lists a name exactly when it is in the folder
    and consists of some text followed by ".tar.gz". *)
Theorem scan_lists_names_ending_in_tar_gz (names : gset string) (f : string) :
  f ∈ scan names ↔ f ∈ names ∧ ∃ stem, f = stem +:+ ".tar.gz".
Proof using Type.
  unfold scan. rewrite elem_of_elements, elem_of_filter.
  rewrite Is_true_true, (and_comm _ (f ∈ names)).
  unfold matches_tar_gz. cbv zeta.
  change (String.length ".tar.gz") with 7%nat.
  split.
  - intros [Hin Hm]. split; [done|].
    apply andb_true_iff in Hm as [Hlen Heq].
    apply Nat.leb_le in Hlen. apply String.eqb_eq in Heq.
    exists (String.substring 0 (String.length f - 7) f).
    pose proof (substring_split (String.length f - 7) f) as Hsplit.
    replace (String.length f - (String.length f - 7))%nat with 7%nat
      in Hsplit by lia.
    rewrite Heq in Hsplit. apply Hsplit. lia.
  - intros [Hin [stem ->]]. split; [done|].
    rewrite length_append.
    change (String.length ".tar.gz") with 7%nat.
    apply andb_true_iff. split.
    + apply Nat.leb_le. lia.
    + replace (String.length stem + 7 - 7)%nat with (String.length stem) by lia.
      rewrite substring_skip. by apply String.eqb_eq.
Qed.

Lemma loop_writes df files o s :
  ∃ evs,
    trace (for_each files (download df) o s).1 = trace s ++ evs ∧
    Forall (λ ev, loop_event ev = true) evs.
Proof.
  revert s; induction files as [|f0 files IH]; intros s.
  { exists []. by rewrite app_nil_r. }
  rewrite for_each_cons, download_eq.
  destruct (rows_named df f0) as [|r rest].
  { exists []. by rewrite app_nil_r. }
  assert (∀ s1 more,
            trace s1 = trace s ++ more →
            Forall (λ ev, loop_event ev = true) more →
            ∃ evs,
              trace (for_each files (download df) o s1).1 = trace s ++ evs ∧
              Forall (λ ev, loop_event ev = true) evs) as Hnext.
  { intros s1 more Htrace Hmore. destruct (IH s1) as (evs & Hevs & Hall).
    exists (more ++ evs). split; [by rewrite Hevs, Htrace, app_assoc|].
    by apply Forall_app. }
  simpl. destruct (urlretrieve_raises o (url r) (filename r)) as [e|].
  - destruct (is_HTTPError e).
    + eapply Hnext; [simpl; by rewrite <- app_assoc|].
      by repeat constructor.
    + eexists. split; [done|]. by repeat constructor.
  - eapply Hnext; [done|]. by repeat constructor.
Qed.

(** X16.  "Done!" is the mark of a normal end: a run started on an empty
    trace returns normally exactly when the final message is in its trace. *)
Theorem done_is_printed_iff_run_succeeds (o : Oracle) (names : gset string) :
  (run o names).2 = Ok tt ↔ EvPrint MsgDone ∈ trace (run o names).1.
Proof.
  unfold run. rewrite main_eq, prepare_eq.
  assert (∀ evs : list event,
            Forall (λ ev, loop_event ev = true) evs → EvPrint MsgDone ∉ evs)
    as Hloop.
  { intros evs Hall Hin. rewrite Forall_forall in Hall.
    by specialize (Hall _ Hin). }
  assert (∀ evs : list event,
            EvPrint MsgDone ∈ [] ++ evs → EvPrint MsgDone ∈ evs) as Hnil
    by done.
  destruct (environ o !! "TIINGO_API_KEY") as [key|].
  2:{ simpl. split; [done|]. intros H. by apply elem_of_nil in H. }
  destruct (mkdir_raises o) as [e|].
  { simpl. split; [done|]. intros H.
    apply elem_of_cons in H as [H|H]; [done|]. by apply elem_of_nil in H. }
  destruct (get_json o (bulk_download_url key)) as [json|e].
  2:{ simpl. split; [done|]. intros H.
      repeat (apply elem_of_cons in H as [H|H]; [done|]).
      by apply elem_of_nil in H. }
  simpl. destruct (filter_dedupe json o _).2 as [df|e].
  2:{ simpl. split; [done|]. intros H.
      repeat (apply elem_of_cons in H as [H|H]; [done|]).
      by apply elem_of_nil in H. }
  match goal with |- context [for_each ?fs (download df) o ?s1] =>
    destruct (loop_writes df fs o s1) as (evs & Hevs & Hall);
    destruct (for_each fs (download df) o s1) as [s2 [[]|e]]
  end; simpl in *.
  - split; [intros _ | done]. apply elem_of_app. right.
    apply elem_of_cons. by left.
  - split; [done|]. rewrite Hevs. intros H.
    repeat (apply elem_of_cons in H as [H|H]; [done|]).
    by apply Hloop in H.
Qed.

(** X17.  The only catalog request a run makes goes to the bulk-download
    address built from the key of the environment, and it is made only
    after the mkdir succeeded. *)
Theorem catalog_request_uses_the_key
    (o : Oracle) (names : gset string) (request_url : string) :
  EvGet request_url ∈ trace (run o names).1 →
  ∃ key,
    environ o !! "TIINGO_API_KEY" = Some key ∧
    mkdir_raises o = None ∧
    request_url = bulk_download_url key.
Proof.
  unfold run. rewrite main_eq, prepare_eq.
  assert (∀ evs : list event,
            Forall (λ ev, loop_event ev = true) evs → EvGet request_url ∉ evs)
    as Hloop.
  { intros evs Hall Hin. rewrite Forall_forall in Hall.
    by specialize (Hall _ Hin). }
  destruct (environ o !! "TIINGO_API_KEY") as [key|].
  2:{ simpl. intros H. by apply elem_of_nil in H. }
  destruct (mkdir_raises o) as [e|].
  { simpl. intros H. apply elem_of_cons in H as [H|H]; [done|].
    by apply elem_of_nil in H. }
  intros Hin. exists key. split; [done|]. split; [done|].
  assert (∀ evs,
            EvGet request_url ∈
              [EvMkdir; EvPrint MsgDownloadList; EvGet (bulk_download_url key)]
              ++ evs →
            EvGet request_url ∉ evs →
            request_url = bulk_download_url key) as Hhead.
  { intros evs H Hnot. apply elem_of_app in H as [H|H]; [|done].
    repeat (apply elem_of_cons in H as [H|H]; [try done; by injection H|]).
    by apply elem_of_nil in H. }
  destruct (get_json o (bulk_download_url key)) as [json|e].
  2:{ apply (Hhead [] Hin). intros H. by apply elem_of_nil in H. }
  cbv zeta in Hin. destruct (filter_dedupe json o _).2 as [df|e].
  2:{ apply (Hhead [] Hin). intros H. by apply elem_of_nil in H. }
  revert Hin.
  match goal with |- context [for_each ?fs (download df) o ?s1] =>
    destruct (loop_writes df fs o s1) as (evs & Hevs & Hall);
    destruct (for_each fs (download df) o s1) as [s2 [[]|e]]
  end; simpl in Hevs; simpl; rewrite Hevs; intros Hin; simpl in Hin;
  match type of Hin with
  | _ ∈ _ :: _ :: _ :: ?rest => apply (Hhead rest Hin)
  end; intros H;
  repeat (apply elem_of_cons in H as [H|H]; [done|]).
  - apply elem_of_app in H as [H|H]; [by apply Hloop in H|].
    apply elem_of_cons in H as [H|H]; [done|]. by apply elem_of_nil in H.
  - by apply Hloop in H.
Qed.

End Script.

(** ** The script on concrete catalogs *)

(** C1 at the input that separates response order from identifier order:
    the entry with identifier 3 is listed before the one with identifier 5.
    Line 26 computes the frame with 5 first and drops it; the row kept and
    the URL fetched are those of identifier 3. *)
Theorem lower_identifier_listed_first_is_kept :
  let json := [Sample.a3; Sample.a5] in
  let o := Sample.oracle Sample.key_only (Ok json) Sample.always_transferred in
  let finished := run Sample.strptime_Ymd Sample.to_datetime_utc_date o ∅ in
  sort_index_descending json = [Sample.a5; Sample.a3] ∧
  incremental_unique json = Ok [Sample.a3] ∧
  finished.2 = Ok tt ∧
  trace finished.1 =
    [EvMkdir; EvPrint MsgDownloadList;
     EvGet "https://api.tiingo.com/tiingo/news/bulk_download?token=k";
     EvPrint MsgLookLocal; EvGlob; EvPrint (MsgStarting 1);
     EvPrint (MsgDownload "a.tar.gz");
     EvUrlretrieve "http://x/old-a" "a.tar.gz";
     EvPrint MsgDone].
Proof. vm_compute. repeat split. Qed.

(** The scenario of the specification, where the provider lists the higher
    identifier first: one file, fetched from http://x/a. *)
Example higher_identifier_listed_first_is_kept :
  let json := [Sample.a5; Sample.a3] in
  let o := Sample.oracle Sample.key_only (Ok json) Sample.always_transferred in
  let finished := run Sample.strptime_Ymd Sample.to_datetime_utc_date o ∅ in
  finished.2 = Ok tt ∧
  elements (folder finished.1) = ["a.tar.gz"] ∧
  trace finished.1 =
    [EvMkdir; EvPrint MsgDownloadList;
     EvGet "https://api.tiingo.com/tiingo/news/bulk_download?token=k";
     EvPrint MsgLookLocal; EvGlob; EvPrint (MsgStarting 1);
     EvPrint (MsgDownload "a.tar.gz");
     EvUrlretrieve "http://x/a" "a.tar.gz";
     EvPrint MsgDone].
Proof. vm_compute. repeat split. Qed.

(** C2 as stated fails: a transfer that raises HTTPError with status 500 is
    not a "not found" error, yet it is caught and logged, the next file is
    fetched, and the run ends normally. *)
Lemma server_error_is_caught_too :
  let json := [Sample.b7; Sample.c8] in
  let o := Sample.oracle Sample.key_only (Ok json)
             (Sample.failing "http://x/c" (HTTPError 500)) in
  let finished := run Sample.strptime_Ymd Sample.to_datetime_utc_date o ∅ in
  is_not_found (HTTPError 500) = false ∧
  urlretrieve_raises o "http://x/c" "c.tar.gz" = Some (HTTPError 500) ∧
  finished.2 = Ok tt ∧
  elements (folder finished.1) = ["b.tar.gz"] ∧
  trace finished.1 =
    [EvMkdir; EvPrint MsgDownloadList;
     EvGet "https://api.tiingo.com/tiingo/news/bulk_download?token=k";
     EvPrint MsgLookLocal; EvGlob; EvPrint (MsgStarting 2);
     EvPrint (MsgDownload "c.tar.gz");
     EvUrlretrieve "http://x/c" "c.tar.gz";
     EvPrint (MsgNotFound "http://x/c" (HTTPError 500));
     EvPrint (MsgDownload "b.tar.gz");
     EvUrlretrieve "http://x/b" "b.tar.gz";
     EvPrint MsgDone].
Proof. vm_compute. repeat split. Qed.

(** C7 as stated fails: the catalog offers "a.zip"; the first run fetches
    it without failure; the scan of the second run lists *.tar.gz only, so
    the second run fetches "a.zip" again. *)
Lemma rerun_fetches_unlisted_name_again :
  let json := [Sample.zip1] in
  let o := Sample.oracle Sample.key_only (Ok json) Sample.always_transferred in
  let first := run Sample.strptime_Ymd Sample.to_datetime_utc_date o ∅ in
  let second :=
    run Sample.strptime_Ymd Sample.to_datetime_utc_date o (folder first.1) in
  first.2 = Ok tt ∧
  elements (folder first.1) = ["a.zip"] ∧
  (prepare Sample.strptime_Ymd Sample.to_datetime_utc_date o
     (mkState (folder first.1) [])).2 = Ok (json, ["a.zip"]) ∧
  second.2 = Ok tt ∧
  trace second.1 =
    [EvMkdir; EvPrint MsgDownloadList;
     EvGet "https://api.tiingo.com/tiingo/news/bulk_download?token=k";
     EvPrint MsgLookLocal; EvGlob; EvPrint (MsgStarting 1);
     EvPrint (MsgDownload "a.zip");
     EvUrlretrieve "http://x/a.zip" "a.zip";
     EvPrint MsgDone].
Proof. vm_compute. repeat split. Qed.

(** ** The theorems at concrete inputs *)

Lemma filter_dedupe_unique_filenames_witness :
  let json := [Sample.base9; Sample.a3; Sample.a5; Sample.b7; Sample.c8] in
  let o := Sample.oracle Sample.key_only (Ok json) Sample.always_transferred in
  (filter_dedupe Sample.strptime_Ymd Sample.to_datetime_utc_date json o
     (mkState ∅ [])).2 = Ok [Sample.a3; Sample.b7; Sample.c8] ∧
  NoDup (map filename [Sample.a3; Sample.b7; Sample.c8]).
Proof.
  intros json o.
  assert ((filter_dedupe Sample.strptime_Ymd Sample.to_datetime_utc_date json o
             (mkState ∅ [])).2 = Ok [Sample.a3; Sample.b7; Sample.c8]) as H.
  { vm_compute. reflexivity. }
  split; [exact H|].
  exact (filter_dedupe_unique_filenames _ _ json o (mkState ∅ []) _ H).
Defined.

Lemma filter_dedupe_only_incremental_witness :
  let json := [Sample.base9; Sample.a3; Sample.a5; Sample.b7; Sample.c8] in
  let o := Sample.oracle Sample.key_only (Ok json) Sample.always_transferred in
  (filter_dedupe Sample.strptime_Ymd Sample.to_datetime_utc_date json o
     (mkState ∅ [])).2 = Ok [Sample.a3; Sample.b7; Sample.c8] ∧
  Sample.b7 ∈ [Sample.a3; Sample.b7; Sample.c8] ∧
  batchType Sample.b7 = "incremental".
Proof.
  intros json o.
  assert ((filter_dedupe Sample.strptime_Ymd Sample.to_datetime_utc_date json o
             (mkState ∅ [])).2 = Ok [Sample.a3; Sample.b7; Sample.c8]) as H.
  { vm_compute. reflexivity. }
  assert (Sample.b7 ∈ [Sample.a3; Sample.b7; Sample.c8]) as Hin.
  { apply elem_of_cons. right. apply elem_of_cons. left. reflexivity. }
  split; [exact H|]. split; [exact Hin|].
  exact (filter_dedupe_only_incremental _ _ json o (mkState ∅ []) _ _ H Hin).
Defined.

Lemma date_window_contains_target_witness :
  let json := [Sample.base9; Sample.a3; Sample.a5; Sample.b7; Sample.c8] in
  let dated := Sample.oracle (Sample.key_and_date "20230402") (Ok json)
                 Sample.always_transferred in
  let plain := Sample.oracle Sample.key_only (Ok json)
                 Sample.always_transferred in
  let b7' := mkRow 7 "b.tar.gz" "http://x/b" "incremental"
               (DayDate (Date 2023 4 2)) (DayDate (Date 2023 4 3)) in
  (∃ D, Sample.strptime_Ymd "20230402" = Some D ∧
     ∀ r, r ∈ [b7'] →
       ∃ r0 sd ed,
         r0 ∈ json ∧ same_entry r0 r ∧
         cell_utc_date Sample.to_datetime_utc_date (startDate r0) = Ok sd ∧
         cell_utc_date Sample.to_datetime_utc_date (endDate r0) = Ok ed ∧
         startDate r = DayDate sd ∧ endDate r = DayDate ed ∧
         date_le sd D = true ∧ date_le D ed = true) ∧
  (∀ out,
     (filter_dedupe Sample.strptime_Ymd Sample.to_datetime_utc_date json plain
        (mkState ∅ [])).2 = Ok out → out `sublist_of` json).
Proof.
  intros json dated plain b7'.
  pose proof (date_window_contains_target Sample.strptime_Ymd
                Sample.to_datetime_utc_date json dated (mkState ∅ [])) as Hd.
  pose proof (date_window_contains_target Sample.strptime_Ymd
                Sample.to_datetime_utc_date json plain (mkState ∅ [])) as Hp.
  split.
  - apply (proj1 Hd "20230402" [b7']); vm_compute; reflexivity.
  - apply (proj2 Hp). vm_compute. reflexivity.
Defined.

Lemma filter_dedupe_deterministic_and_pure_witness :
  let json := [Sample.a3; Sample.a5; Sample.b7] in
  let o1 := Sample.oracle (Sample.key_and_date "20230402") (Ok json)
              Sample.always_transferred in
  let o2 := Sample.oracle
              [("QC_DATAFLEET_DEPLOYMENT_DATE", "20230402"); ("HOME", "/root")]
              (Raise (OtherError "ConnectionError"))
              (Sample.failing "http://x/b" (HTTPError 404)) in
  let s1 := mkState ∅ [] in
  let s2 := mkState {["a.tar.gz"]} [EvMkdir] in
  (filter_dedupe Sample.strptime_Ymd Sample.to_datetime_utc_date json o1 s1).2 =
  (filter_dedupe Sample.strptime_Ymd Sample.to_datetime_utc_date json o2 s2).2 ∧
  (filter_dedupe Sample.strptime_Ymd Sample.to_datetime_utc_date json o1 s1).1 = s1 ∧
  (filter_dedupe Sample.strptime_Ymd Sample.to_datetime_utc_date json o2 s2).1 = s2.
Proof.
  intros json o1 o2 s1 s2.
  apply (filter_dedupe_deterministic_and_pure Sample.strptime_Ymd
           Sample.to_datetime_utc_date json o1 o2 s1 s2).
  vm_compute. reflexivity.
Defined.

Lemma dedupe_keeps_first_of_response_order_witness :
  [Sample.a3] `sublist_of` [Sample.base9; Sample.a3; Sample.a5] ∧
  ∀ r, r ∈ [Sample.a3] ↔
    ∃ before after,
      [Sample.base9; Sample.a3; Sample.a5] = before ++ r :: after ∧
      batchType r = "incremental" ∧
      (∀ r', r' ∈ before → batchType r' = "incremental" →
             filename r' ≠ filename r).
Proof.
  apply (dedupe_keeps_first_of_response_order
           [Sample.base9; Sample.a3; Sample.a5] [Sample.a3]).
  vm_compute. reflexivity.
Defined.

Lemma download_loop_error_policy_witness :
  let df := [Sample.b7; Sample.c8] in
  let o := Sample.oracle Sample.key_only (Ok df)
             (Sample.failing "http://x/b" (HTTPError 404)) in
  let s := mkState ∅ [] in
  for_each ["b.tar.gz"; "c.tar.gz"] (download df) o s =
  for_each ["c.tar.gz"] (download df) o
    (traced (traced s [EvPrint (MsgDownload "b.tar.gz");
                       EvUrlretrieve "http://x/b" "b.tar.gz"])
            [EvPrint (MsgNotFound "http://x/b" (HTTPError 404))]).
Proof.
  intros df o s.
  apply (download_loop_error_policy df "b.tar.gz" ["c.tar.gz"] o s
           Sample.b7 [] (HTTPError 404)).
  - vm_compute. reflexivity.
  - vm_compute. reflexivity.
  - vm_compute. reflexivity.
Defined.

Lemma second_run_downloads_nothing_witness :
  let json := [Sample.a3; Sample.a5; Sample.b7] in
  let o := Sample.oracle Sample.key_only (Ok json) Sample.always_transferred in
  let first := run Sample.strptime_Ymd Sample.to_datetime_utc_date o ∅ in
  ∃ s2 df,
    prepare Sample.strptime_Ymd Sample.to_datetime_utc_date o
      (mkState (folder first.1) []) = (s2, Ok (df, [])) ∧
    run Sample.strptime_Ymd Sample.to_datetime_utc_date o (folder first.1) =
      (traced s2 [EvPrint MsgDone], Ok tt) ∧
    folder s2 = folder first.1 ∧
    ∀ u f, EvUrlretrieve u f ∉ trace s2.
Proof.
  intros json o first.
  apply (second_run_downloads_nothing Sample.strptime_Ymd
           Sample.to_datetime_utc_date o ∅ first.1).
  - intros X. reflexivity.
  - vm_compute. reflexivity.
  - intros u f Hev. vm_compute in Hev.
    repeat (apply elem_of_cons in Hev as [Hev|Hev];
            [try discriminate Hev;
             injection Hev as -> ->; vm_compute; repeat split |]).
    apply elem_of_nil in Hev. destruct Hev.
Defined.

(** ** The further theorems at concrete inputs *)

Lemma empty_catalog_raises_KeyError_witness :
  let o := Sample.oracle Sample.key_only (Ok []) Sample.always_transferred in
  main Sample.strptime_Ymd Sample.to_datetime_utc_date o (mkState ∅ []) =
    (traced (mkState ∅ [])
       [EvMkdir; EvPrint MsgDownloadList; EvGet (bulk_download_url "k")],
     Raise (KeyError "id")).
Proof.
  intros o.
  apply (empty_catalog_raises_KeyError Sample.strptime_Ymd
           Sample.to_datetime_utc_date o (mkState ∅ []) "k");
    vm_compute; reflexivity.
Defined.

Lemma each_file_resolves_to_one_row_witness :
  ∃ r, rows_named [Sample.a3; Sample.b7] "b.tar.gz" = [r] ∧
       filename r = "b.tar.gz".
Proof.
  pose (o := Sample.oracle Sample.key_only
               (Ok [Sample.a3; Sample.a5; Sample.b7])
               Sample.always_transferred).
  apply (each_file_resolves_to_one_row Sample.strptime_Ymd
           Sample.to_datetime_utc_date o (mkState ∅ [])
           (prepare Sample.strptime_Ymd Sample.to_datetime_utc_date o
              (mkState ∅ [])).1
           [Sample.a3; Sample.b7] ["a.tar.gz"; "b.tar.gz"] "b.tar.gz").
  - intros X. reflexivity.
  - vm_compute. reflexivity.
  - apply elem_of_cons. right. apply elem_of_cons. left. reflexivity.
Defined.

Lemma attempted_transfers_are_eligible_witness :
  let o := Sample.oracle Sample.key_only
             (Ok [Sample.a3; Sample.a5; Sample.b7])
             Sample.always_transferred in
  ("a.tar.gz" ∉ scan ∅) ∧ ("a.tar.gz" ∉ known_missing_dates) ∧
  ∃ key json r0,
    environ o !! "TIINGO_API_KEY" = Some key ∧
    get_json o (bulk_download_url key) = Ok json ∧
    r0 ∈ json ∧ batchType r0 = "incremental" ∧
    filename r0 = "a.tar.gz" ∧ url r0 = "http://x/old-a".
Proof.
  intros o.
  apply (attempted_transfers_are_eligible Sample.strptime_Ymd
           Sample.to_datetime_utc_date o ∅ "http://x/old-a" "a.tar.gz").
  - intros X. reflexivity.
  - assert (trace (run Sample.strptime_Ymd Sample.to_datetime_utc_date o ∅).1 =
            [EvMkdir; EvPrint MsgDownloadList;
             EvGet "https://api.tiingo.com/tiingo/news/bulk_download?token=k";
             EvPrint MsgLookLocal; EvGlob; EvPrint (MsgStarting 2);
             EvPrint (MsgDownload "a.tar.gz");
             EvUrlretrieve "http://x/old-a" "a.tar.gz";
             EvPrint (MsgDownload "b.tar.gz");
             EvUrlretrieve "http://x/b" "b.tar.gz"; EvPrint MsgDone]) as ->.
    { vm_compute. reflexivity. }
    do 7 (apply elem_of_cons; right). apply elem_of_cons. left. reflexivity.
Defined.

Lemma each_file_attempted_at_most_once_witness :
  let o := Sample.oracle Sample.key_only
             (Ok [Sample.a3; Sample.a5; Sample.b7])
             (Sample.failing "http://x/b" (OtherError "URLError")) in
  let finished := run Sample.strptime_Ymd Sample.to_datetime_utc_date o ∅ in
  attempted (trace finished.1) `prefix_of` ["a.tar.gz"; "b.tar.gz"] ∧
  NoDup ["a.tar.gz"; "b.tar.gz"] ∧
  (finished.2 = Ok tt → attempted (trace finished.1) = ["a.tar.gz"; "b.tar.gz"]).
Proof.
  intros o finished.
  apply (each_file_attempted_at_most_once Sample.strptime_Ymd
           Sample.to_datetime_utc_date o ∅
           (prepare Sample.strptime_Ymd Sample.to_datetime_utc_date o
              (mkState ∅ [])).1
           [Sample.a3; Sample.b7] ["a.tar.gz"; "b.tar.gz"]).
  - intros X. reflexivity.
  - vm_compute. reflexivity.
Defined.



Lemma greatest_identifier_kept_when_listed_descending_witness :
  id Sample.a3 ≤ id Sample.a5.
Proof.
  apply (greatest_identifier_kept_when_listed_descending
           [Sample.a5; Sample.a3] [Sample.a5] Sample.a5 Sample.a3).
  - vm_compute. reflexivity.
  - intros before r after Heq r' Hr'.
    destruct before as [|r1 before]; injection Heq as <- Heq.
    + subst after. apply elem_of_cons in Hr' as [->|Hr'].
      * vm_compute. discriminate.
      * apply elem_of_nil in Hr'. destruct Hr'.
    + destruct before as [|r2 before]; injection Heq as <- Heq.
      * subst after. apply elem_of_nil in Hr'. destruct Hr'.
      * destruct before; discriminate Heq.
  - apply elem_of_cons. left. reflexivity.
  - apply elem_of_cons. right. apply elem_of_cons. left. reflexivity.
  - reflexivity.
  - reflexivity.
Defined.

Lemma dedupe_loses_no_filename_witness :
  let json := [Sample.base9; Sample.a3; Sample.a5; Sample.b7; Sample.c8] in
  "a.tar.gz" ∈ map filename [Sample.a3; Sample.b7; Sample.c8] ↔
  ∃ r, r ∈ json ∧ batchType r = "incremental" ∧ filename r = "a.tar.gz".
Proof.
  intros json.
  apply (dedupe_loses_no_filename Sample.strptime_Ymd
           Sample.to_datetime_utc_date json
           (Sample.oracle Sample.key_only (Ok json) Sample.always_transferred)
           (mkState ∅ []) [Sample.a3; Sample.b7; Sample.c8]);
    vm_compute; reflexivity.
Defined.

Lemma date_window_keeps_rows_in_range_witness :
  let b7' := mkRow 7 "b.tar.gz" "http://x/b" "incremental"
               (DayDate (Date 2023 4 2)) (DayDate (Date 2023 4 3)) in
  ∃ r, r ∈ [b7'] ∧ same_entry Sample.b7 r ∧
       startDate r = DayDate (Date 2023 4 2) ∧
       endDate r = DayDate (Date 2023 4 3).
Proof.
  intros b7'.
  pose (json := [Sample.base9; Sample.a3; Sample.a5; Sample.b7; Sample.c8]).
  apply (date_window_keeps_rows_in_range Sample.strptime_Ymd
           Sample.to_datetime_utc_date json
           (Sample.oracle (Sample.key_and_date "20230402") (Ok json)
              Sample.always_transferred)
           (mkState ∅ []) [b7'] [Sample.a3; Sample.b7; Sample.c8]
           "20230402" (Date 2023 4 2)); try (vm_compute; reflexivity).
  apply elem_of_cons. right. apply elem_of_cons. left. reflexivity.
Defined.

Lemma unparsable_target_date_raises_witness :
  let o := Sample.oracle (Sample.key_and_date "2023-04-02") (Ok [Sample.a3])
             Sample.always_transferred in
  filter_dedupe Sample.strptime_Ymd Sample.to_datetime_utc_date [Sample.a3] o
    (mkState ∅ []) =
  (mkState ∅ [], Raise (ValueError "2023-04-02")).
Proof.
  intros o.
  apply (unparsable_target_date_raises Sample.strptime_Ymd
           Sample.to_datetime_utc_date [Sample.a3] o (mkState ∅ [])
           "2023-04-02"); vm_compute; reflexivity.
Defined.

Lemma surviving_row_is_first_listed_entry_witness :
  let json := [Sample.base9; Sample.a3; Sample.a5; Sample.b7; Sample.c8] in
  let a3' := mkRow 3 "a.tar.gz" "http://x/old-a" "incremental"
               (DayDate (Date 2023 3 30)) (DayDate (Date 2023 3 31)) in
  ∃ before r0 after,
    json = before ++ r0 :: after ∧
    batchType r0 = "incremental" ∧
    (∀ r', r' ∈ before → batchType r' = "incremental" →
           filename r' ≠ filename r0) ∧
    same_entry r0 a3'.
Proof.
  intros json a3'.
  apply (surviving_row_is_first_listed_entry Sample.strptime_Ymd
           Sample.to_datetime_utc_date json
           (Sample.oracle (Sample.key_and_date "20230331") (Ok json)
              Sample.always_transferred)
           (mkState ∅ []) [a3'] a3').
  - vm_compute. reflexivity.
  - apply elem_of_cons. left. reflexivity.
Defined.

Lemma failure_before_loop_changes_nothing_witness :
  let o := Sample.oracle [] (Ok [Sample.a3]) Sample.always_transferred in
  let s := mkState {["old.tar.gz"]} [] in
  (main Sample.strptime_Ymd Sample.to_datetime_utc_date o s).2 =
    Raise (KeyError "TIINGO_API_KEY") ∧
  folder (main Sample.strptime_Ymd Sample.to_datetime_utc_date o s).1 =
    folder s ∧
  attempted (trace (main Sample.strptime_Ymd Sample.to_datetime_utc_date o s).1)
    = attempted (trace s).
Proof.
  intros o s.
  apply (failure_before_loop_changes_nothing Sample.strptime_Ymd
           Sample.to_datetime_utc_date o s (KeyError "TIINGO_API_KEY")).
  vm_compute. reflexivity.
Defined.


Lemma catalog_request_uses_the_key_witness :
  let o := Sample.oracle Sample.key_only (Raise (OtherError "ConnectionError"))
             Sample.always_transferred in
  ∃ key,
    environ o !! "TIINGO_API_KEY" = Some key ∧
    mkdir_raises o = None ∧
    "https://api.tiingo.com/tiingo/news/bulk_download?token=k" =
      bulk_download_url key.
Proof.
  intros o.
  apply (catalog_request_uses_the_key Sample.strptime_Ymd
           Sample.to_datetime_utc_date o ∅).
  assert (trace (run Sample.strptime_Ymd Sample.to_datetime_utc_date o ∅).1 =
          [EvMkdir; EvPrint MsgDownloadList;
           EvGet "https://api.tiingo.com/tiingo/news/bulk_download?token=k"])
    as ->.
  { vm_compute. reflexivity. }
  do 2 (apply elem_of_cons; right). apply elem_of_cons. left. reflexivity.
Defined.
